(** * The worker registration gateway (cmd/tsa/server.go)

    A shallow embedding of the SSH gateway's keepalive dialer, of its
    global-request consumer ([handleForwardRequests]) and of its session
    handler ([handleConn]), with the properties the specification states
    about them.

    Conventions.  What the operating system, the SSH library and the peer
    decide (whether a dial or a listen succeeds, which port the kernel
    picks, whether a payload unmarshals, what the worker writes on its
    channel) is an input of the model; what server.go does with those
    answers is transcribed branch by branch.  Effects are recorded as a
    trace of events in program order.  Logging through lager is left out:
    no property below depends on it. *)

From Stdlib Require Import ZArith Lia.
From stdpp Require Import gmap strings list fin_maps pretty.

Open Scope string_scope.
Open Scope list_scope.

(** ** Go values *)

(** Go's [int] on a 64-bit platform: two's complement, wrapping. *)
Definition int_max : Z := 2 ^ 63 - 1.

Definition wrap_int (z : Z) : Z := ((z + 2 ^ 63) mod 2 ^ 64 - 2 ^ 63)%Z.

(** A Go [error]: [None] is nil, [Some msg] carries [err.Error()]. *)
Definition error := option string.

(** [fmt.Sprintf("%d", n)] for an unsigned [n]: the decimal numeral. *)
Definition fmt_d (n : N) : string := pretty n.

(** [fmt.Sprintf("%s:%d", host, port)]. *)
Definition host_port (host : string) (port : N) : string :=
  host +:+ ":" +:+ fmt_d port.

(** ** The payloads of the SSH messages server.go reads and writes

    The structs are declared in another file of package main; the fields
    are the ones server.go reads and assigns.  [uint32] fields are [N]:
    the code compares them with zero and prints them, nothing else. *)

Record tcpipForwardRequest := {
  BindIP : string;
  BindPort : N
}.

Record tcpipForwardResponse := {
  BoundPort : N
}.

Record forwardTCPIPChannelRequest := {
  ForwardIP : string;
  ForwardPort : N;
  OriginIP : string;
  OriginPort : N
}.

(** Modelled from the spec: the worker descriptor [atc.Worker], whose
    declaration lives in the atc package.  Section 3 of the specification
    lists a name, a platform tag, an address for Garden, an optional URL
    for Baggageclaim (empty when absent) and free-form tags; server.go
    assigns [GardenAddr] and [BaggageclaimURL]. *)
Record Worker := {
  GardenAddr : string;
  BaggageclaimURL : string;
  Name : string;
  Platform : string;
  Tags : list string
}.

(** ** Subordinate processes

    An [ifrit.Process] is either a forward dispatcher, started by
    [forwardTCPIP] on a listener, or a heartbeater, started by
    [heartbeatWorker] on a worker descriptor.  Listeners are numbered in
    the order the connection opens them. *)
Inductive Process :=
| Dispatcher (listener : nat) (forwardIP : string) (forwardPort : N)
| Heartbeater (worker : Worker).

Record forwardedTCPIP := {
  bindAddr : string;
  process : Process;
  boundPort : N
}.

(** ** keepaliveDialerFactory *)

Module Dialer.

(** A run either returns or panics. *)
Inductive outcome (A : Type) :=
| Returned (a : A)
| Panicked.
Arguments Returned {A} a.
Arguments Panicked {A}.

(** The answers of [net.DialTimeout] and of the tcpkeepalive package.
    [EnableKeepAlive] returns a [*tcpkeepalive.Conn] (nil is [None])
    and an error; each setter returns an error. *)
Record answers := {
  dialed : nat + string;
  enabled : option nat * error;
  idleSet : error;
  countSet : error;
  intervalSet : error
}.

Inductive event :=
| DialTimeout (network address : string) (seconds : N)
| EnableKeepAlive (conn : nat)
| SetKeepAliveIdle (seconds : N)
| SetKeepAliveCount (n : N)
| SetKeepAliveInterval (seconds : N)
| Println (msg : string).

(** [if err != nil { println(prefix + err.Error()) }] *)
Definition report (prefix : string) (err : error) : list event :=
  match err with
  | Some msg => [Println (prefix +:+ msg)]
  | None => []
  end.

(** The closure [keepaliveDialerFactory(network, address)] returns.
    After [EnableKeepAlive] the code goes on to call the setters on
    [kac] whatever [err] was; they are methods that read the fields of
    their receiver, so on a nil [kac] the first of them is a nil
    pointer dereference, a run-time panic. *)
Definition keepaliveDialer (network address : string) (a : answers)
  : outcome (option nat * error) * list event :=
  let t0 := [DialTimeout network address 5] in
  match dialed a with
  | inr err => (Returned (None, Some err), t0)
  | inl conn =>
    let (kac, err) := enabled a in
    let t1 := t0 ++ [EnableKeepAlive conn]
                 ++ report "failed to enable connection keepalive: " err in
    match kac with
    | None => (Panicked, t1)
    | Some _ =>
      let t2 := t1 ++ [SetKeepAliveIdle 10]
                   ++ report "failed to set keepalive idle threshold: " (idleSet a) in
      let t3 := t2 ++ [SetKeepAliveCount 3]
                   ++ report "failed to set keepalive count: " (countSet a) in
      let t4 := t3 ++ [SetKeepAliveInterval 5]
                   ++ report "failed to set keepalive interval: " (intervalSet a) in
      (Returned (Some conn, None), t4)
    end
  end.

End Dialer.

(** A membership hypothesis [H] in an explicit list none of whose
    elements it can be (or only the last ones). *)
Ltac absurd_member H :=
  repeat (apply elem_of_cons in H as [H|H]; [try discriminate H|]);
  try (apply elem_of_nil in H; contradiction).

(** ** handleForwardRequests *)

Module Forward.

(** What [net.Listen("tcp", "0.0.0.0:0")] and the two parsing steps on
    the listener's address come to. *)
Inductive listenOutcome :=
| ListenFailed
| AddrUnsplit
| PortUnscanned
| Listening (port : N).

(** A global request: its type, what [ssh.Unmarshal] makes of its
    payload ([None] for an error), and what listening would give if the
    code gets that far. *)
Record Request := {
  Type_ : string;
  Payload : option tcpipForwardRequest;
  Listen_ : listenOutcome
}.

Inductive event :=
| Reply (ok : bool) (payload : option tcpipForwardResponse)
| Listen (listener : nat)
| Spawn (p : Process)
| Push (f : forwardedTCPIP)
| CloseListener (listener : nat).

(** The locals of [handleForwardRequests]: the counter, and the
    listeners whose [Close] has been deferred (latest first). *)
Record state := {
  forwardedThings : Z;
  deferred : list nat;
  opened : nat
}.

Definition init : state :=
  {| forwardedThings := 0; deferred := []; opened := 0 |}.

Definition forwardTCPIP (listener : nat) (forwardIP : string) (forwardPort : N)
  : Process := Dispatcher listener forwardIP forwardPort.

(** One iteration of [for r := range reqs]. *)
Definition handleForwardRequest (s : state) (r : Request) : state * list event :=
  if decide (Type_ r = "tcpip-forward") then
    let s := {| forwardedThings := wrap_int (forwardedThings s + 1);
                deferred := deferred s; opened := opened s |} in
    if decide (forwardedThings s > 2)%Z then (s, [Reply false None])
    else
      match Payload r with
      | None => (s, [Reply false None])
      | Some req =>
        match Listen_ r with
        | ListenFailed => (s, [Reply false None])
        | outcome =>
          let listener := opened s in
          let s := {| forwardedThings := forwardedThings s;
                      deferred := listener :: deferred s;
                      opened := S (opened s) |} in
          match outcome with
          | Listening port =>
            let res := {| BoundPort := port |} in
            let forPort := if decide (BindPort req = 0%N) then BoundPort res
                           else BindPort req in
            let process := forwardTCPIP listener (BindIP req) forPort in
            (s, [Listen listener;
                 Spawn process;
                 Push {| bindAddr := host_port (BindIP req) (BindPort req);
                         process := process;
                         boundPort := BoundPort res |};
                 Reply true (Some res)])
          | _ => (s, [Listen listener; Reply false None])
          end
        end
      end
  else (s, [Reply false None]).

(** The loop, up to the point where [reqs] is drained. *)
Fixpoint serve (s : state) (reqs : list Request) : state * list event :=
  match reqs with
  | [] => (s, [])
  | r :: reqs =>
    let (s, t) := handleForwardRequest s r in
    let (s', t') := serve s reqs in
    (s', t ++ t')
  end.

(** The whole function: when [reqs] is closed the deferred
    [listener.Close()] calls run, latest first. *)
Definition handleForwardRequests (reqs : list Request) : list event :=
  let (s, t) := serve init reqs in
  t ++ map CloseListener (deferred s).

(** Observations on a trace. *)
Definition is_accept (e : event) : bool :=
  match e with Reply true _ => true | _ => false end.

Definition accepted (t : list event) : nat :=
  length (List.filter is_accept t).

Fixpoint pushed (t : list event) : list forwardedTCPIP :=
  match t with
  | [] => []
  | Push f :: t => f :: pushed t
  | _ :: t => pushed t
  end.

Fixpoint spawned (t : list event) : list Process :=
  match t with
  | [] => []
  | Spawn p :: t => p :: spawned t
  | _ :: t => spawned t
  end.

Definition is_forward (r : Request) : bool :=
  bool_decide (Type_ r = "tcpip-forward").

Definition forwardRequests (reqs : list Request) : nat :=
  length (List.filter is_forward reqs).

(** [forwardLocalConn], up to [conn.OpenChannel]: the payload of the
    [forwarded-tcpip] channel a dispatcher opens for a local connection
    whose remote address splits into [origin] (or fails to). *)
Definition forwardLocalConn (forwardIP : string) (forwardPort : N)
    (origin : option (string * option N)) : option forwardTCPIPChannelRequest :=
  match origin with
  | None => None
  | Some (_, None) => None
  | Some (host, Some port) =>
    Some {| ForwardIP := forwardIP; ForwardPort := forwardPort;
            OriginIP := host; OriginPort := port |}
  end.

(** A dispatcher hands every accepted local connection to
    [forwardLocalConn] with the address it was started with. *)
Definition dispatch (p : Process) (origin : option (string * option N))
  : option forwardTCPIPChannelRequest :=
  match p with
  | Dispatcher _ forwardIP forwardPort => forwardLocalConn forwardIP forwardPort origin
  | Heartbeater _ => None
  end.

End Forward.

(** ** handleConn *)

Module Conn.

(** Modelled from the spec: the worker request the command parser
    produces, declared in another file of package main.  Section 3 gives
    two variants, [register-worker] and [forward-worker] with the
    client-declared bind addresses; server.go reads the fields
    [gardenAddr] and [baggageclaimAddr] and uses both as map keys, so
    they are strings. *)
Inductive workerRequest :=
| registerWorkerRequest
| forwardWorkerRequest (gardenAddr baggageclaimAddr : string).

(** A request on a session channel: its type, what [ssh.Unmarshal]
    makes of its payload (the [Command] of an [execRequest], [None] for
    an error), and what [json.NewDecoder(channel).Decode] yields if the
    handler comes to read the worker's descriptor ([None] for an
    error). *)
Record Request := {
  Type_ : string;
  Payload : option string;
  Decoded : option Worker
}.

(** A channel the peer opens: its type, and what [Accept] returns
    ([None] for an error, else the requests that arrive on it). *)
Record NewChannel := {
  ChannelType : string;
  Accepted : option (list Request)
}.

Inductive event :=
| Reject (channelType : string)
| Accept (channel : nat)
| Reply (ok : bool)
| Fprintf (channel : nat) (msg : string)
| Start (p : Process)
| ConnWait
| CloseChannel (channel : nat)
| Signal (p : Process)
| Wait (p : Process)
| CloseConn.

(** The locals of [handleConn]: the recorded processes, the session
    channels whose [Close] has been deferred (latest first, numbered in
    the order they were accepted), and what each coming [select] on the
    queue [forwardedTCPIPs] will yield: [Some] for a record received,
    [None] when the ten-second timer fires first (also when the list is
    exhausted). *)
Record state := {
  processes : list Process;
  channels : list nat;
  forwardedTCPIPs : list (option forwardedTCPIP)
}.

Definition init (queue : list (option forwardedTCPIP)) : state :=
  {| processes := []; channels := []; forwardedTCPIPs := queue |}.

Definition record_process (p : Process) (s : state) : state :=
  {| processes := processes s ++ [p];
     channels := channels s;
     forwardedTCPIPs := forwardedTCPIPs s |}.

(** How an iteration of a loop ends: [continue] (or its natural end),
    or [return] out of [handleConn]. *)
Inductive flow := Continue | Return.

(** The line feed that ends the diagnostics. *)
Definition nl : string :=
  String (Ascii.Ascii false true false true false false false false) EmptyString.

Definition heartbeatWorker (worker : Worker) : Process := Heartbeater worker.

Definition continuouslyRegisterWorkerDirectly (decoded : option Worker)
  : option Process :=
  match decoded with
  | None => None
  | Some worker => Some (heartbeatWorker worker)
  end.

(** The loop [for i := 0; i < r.expectedForwards(); i++ { select ... }]. *)
Fixpoint collect (n : nat) (s : state) (forwards : gmap string forwardedTCPIP)
  : state * gmap string forwardedTCPIP :=
  match n with
  | O => (s, forwards)
  | S n =>
    match forwardedTCPIPs s with
    | Some forwarded :: queue =>
      collect n {| processes := processes s ++ [process forwarded];
                   channels := channels s;
                   forwardedTCPIPs := queue |}
              (<[bindAddr forwarded := forwarded]> forwards)
    | None :: queue =>
      collect n {| processes := processes s;
                   channels := channels s;
                   forwardedTCPIPs := queue |}
              forwards
    | [] => collect n s forwards
    end
  end.

Section Handler.

(** [server.forwardHost]. *)
Variable forwardHost : string.

(** The command parser and [expectedForwards] are declared in another
    file of package main: the handler is stated for any such pair.
    [parseRequest] returns the request or the text of its error. *)
Variable parseRequest : string -> workerRequest + string.
Variable expectedForwards : string -> string -> nat.

Definition continuouslyRegisterForwardedWorker (decoded : option Worker)
    (gardenPort baggageclaimPort : N) : option Process :=
  match decoded with
  | None => None
  | Some worker =>
    let worker := {| GardenAddr := host_port forwardHost gardenPort;
                     BaggageclaimURL := BaggageclaimURL worker;
                     Name := Name worker;
                     Platform := Platform worker;
                     Tags := Tags worker |} in
    let worker :=
      if decide (baggageclaimPort ≠ 0%N) then
        {| GardenAddr := GardenAddr worker;
           BaggageclaimURL := "http://" +:+ host_port forwardHost baggageclaimPort;
           Name := Name worker;
           Platform := Platform worker;
           Tags := Tags worker |}
      else worker in
    Some (heartbeatWorker worker)
  end.

(** What follows a call of [continuouslyRegisterForwardedWorker]:
    [return] on an error, else record the process. *)
Definition registered (s : state) (started : option Process)
  : flow * state * list event :=
  match started with
  | None => (Return, s, [])
  | Some p => (Continue, record_process p s, [Start p])
  end.

(** [err = conn.Wait()] closes a branch that did not return. *)
Definition then_wait (r : flow * state * list event) : flow * state * list event :=
  match r with
  | (Continue, s, t) => (Continue, s, t ++ [ConnWait])
  | (Return, s, t) => (Return, s, t)
  end.

(** [switch len(forwards)]. *)
Definition register_forwards (s : state) (channel : nat) (decoded : option Worker)
    (gardenAddr baggageclaimAddr : string)
    (forwards : gmap string forwardedTCPIP) : flow * state * list event :=
  match size forwards with
  | 0 =>
    (Return, s,
     [Fprintf channel ("requested forwarding but no forwards given" +:+ nl)])
  | 1 =>
    match map_to_list forwards with
    | (_, gardenForward) :: _ =>
      then_wait (registered s
        (continuouslyRegisterForwardedWorker decoded (boundPort gardenForward) 0))
    | [] => then_wait (Continue, s, [])
    end
  | 2 =>
    match forwards !! gardenAddr with
    | None =>
      (Return, s,
       [Fprintf channel
          ("garden address " +:+ gardenAddr +:+ " not found in forwards" +:+ nl)])
    | Some gardenForward =>
      match forwards !! baggageclaimAddr with
      | None =>
        (Return, s,
         [Fprintf channel
            ("baggageclaim address " +:+ gardenAddr +:+ " not found in forwards" +:+ nl)])
      | Some baggageclaimForward =>
        then_wait (registered s
          (continuouslyRegisterForwardedWorker decoded
             (boundPort gardenForward) (boundPort baggageclaimForward)))
      end
    end
  | _ => then_wait (Continue, s, [])
  end.

(** The body of [case forwardWorkerRequest:].  The [exec] request is
    not replied to on this path. *)
Definition forwardWorker (s : state) (channel : nat) (decoded : option Worker)
    (gardenAddr baggageclaimAddr : string) : flow * state * list event :=
  let (s, forwards) :=
    collect (expectedForwards gardenAddr baggageclaimAddr) s ∅ in
  register_forwards s channel decoded gardenAddr baggageclaimAddr forwards.

(** The body of [case registerWorkerRequest:]. *)
Definition registerWorker (s : state) (decoded : option Worker)
  : flow * state * list event :=
  match continuouslyRegisterWorkerDirectly decoded with
  | None => (Return, s, [Reply true])
  | Some p => (Continue, record_process p s, [Reply true; Start p; ConnWait])
  end.

(** One iteration of [for req := range requests].  The [default:] arm of
    the type switch has no counterpart: a parsed request is one of the
    two variants. *)
Definition handleRequest (s : state) (channel : nat) (req : Request)
  : flow * state * list event :=
  if decide (Type_ req ≠ "exec") then (Continue, s, [Reply false])
  else
    match Payload req with
    | None => (Return, s, [Reply false])
    | Some command =>
      match parseRequest command with
      | inr err =>
        (Continue, s, [Fprintf channel ("invalid command: " +:+ err); Reply false])
      | inl registerWorkerRequest => registerWorker s (Decoded req)
      | inl (forwardWorkerRequest gardenAddr baggageclaimAddr) =>
        forwardWorker s channel (Decoded req) gardenAddr baggageclaimAddr
      end
    end.

Fixpoint handleRequests (s : state) (channel : nat) (requests : list Request)
  : flow * state * list event :=
  match requests with
  | [] => (Continue, s, [])
  | req :: requests =>
    match handleRequest s channel req with
    | (Return, s, t) => (Return, s, t)
    | (Continue, s, t) =>
      let '(f, s', t') := handleRequests s channel requests in
      (f, s', t ++ t')
    end
  end.

(** One iteration of [for newChannel := range chans]. *)
Definition handleChannel (s : state) (newChannel : NewChannel)
  : flow * state * list event :=
  if decide (ChannelType newChannel ≠ "session") then
    (Continue, s, [Reject (ChannelType newChannel)])
  else
    match Accepted newChannel with
    | None => (Return, s, [])
    | Some requests =>
      let channel := length (channels s) in
      let s := {| processes := processes s;
                  channels := channel :: channels s;
                  forwardedTCPIPs := forwardedTCPIPs s |} in
      let '(f, s', t) := handleRequests s channel requests in
      (f, s', Accept channel :: t)
    end.

Fixpoint handleChannels (s : state) (chans : list NewChannel)
  : state * list event :=
  match chans with
  | [] => (s, [])
  | newChannel :: chans =>
    match handleChannel s newChannel with
    | (Return, s, t) => (s, t)
    | (Continue, s, t) =>
      let (s', t') := handleChannels s chans in
      (s', t ++ t')
    end
  end.

(** The deferred function of [handleConn]: signal every recorded
    process, then wait on each. *)
Definition cleanup (s : state) : list event :=
  map Signal (processes s) ++ map Wait (processes s).

(** What runs when [handleConn] returns, on whichever path: the
    deferred calls, latest first. *)
Definition unwind (s : state) : list event :=
  map CloseChannel (channels s) ++ cleanup s ++ [CloseConn].

Definition handleConnFrom (s : state) (chans : list NewChannel) : list event :=
  let (s', t) := handleChannels s chans in
  t ++ unwind s'.

Definition handleConn (queue : list (option forwardedTCPIP))
    (chans : list NewChannel) : list event :=
  handleConnFrom (init queue) chans.

End Handler.

(** The descriptors handed to heartbeaters in a trace. *)
Fixpoint published (t : list event) : list Worker :=
  match t with
  | [] => []
  | Start (Heartbeater w) :: t => w :: published t
  | _ :: t => published t
  end.

End Conn.

(** ** The command parser *)

Module Parser.

Import Conn.

(** [strings.Split(s, sep)] for a one-character separator. *)
Fixpoint split_on (sep : Ascii.ascii) (s : string) : list string :=
  match s with
  | EmptyString => [EmptyString]
  | String c s =>
    if decide (c = sep) then EmptyString :: split_on sep s
    else
      match split_on sep s with
      | w :: ws => String c w :: ws
      | [] => [String c EmptyString]
      end
  end.

Definition colon : Ascii.ascii :=
  Ascii.Ascii false true false true true true false false.

(** An address of the form [H:P]: a colon, and something after the
    last one. *)
Definition valid_addr (a : string) : bool :=
  match reverse (split_on colon a) with
  | port :: _ :: _ => bool_decide (port ≠ "")
  | _ => false
  end.

(** Modelled from the spec: [parseRequest], declared in another file of
    package main.  Section 4.7 and the grammar of section 6 accept
    [register-worker] and
    [forward-worker [--garden-address H:P] [--baggageclaim-address H:P]],
    validate the addresses, and fail with "invalid command" on anything
    else.  An address that is not supplied is the empty string. *)
Definition parseRequest (cli : string) : workerRequest + string :=
  match split_on Ascii.Space cli with
  | [command] =>
    if decide (command = "register-worker") then inl registerWorkerRequest
    else if decide (command = "forward-worker") then inl (forwardWorkerRequest "" "")
    else inr "invalid command"
  | [command; flag; addr] =>
    if decide (command = "forward-worker") then
      if negb (valid_addr addr) then inr "invalid command"
      else if decide (flag = "--garden-address") then
        inl (forwardWorkerRequest addr "")
      else if decide (flag = "--baggageclaim-address") then
        inl (forwardWorkerRequest "" addr)
      else inr "invalid command"
    else inr "invalid command"
  | [command; flag1; addr1; flag2; addr2] =>
    if decide (command = "forward-worker"
               ∧ flag1 = "--garden-address"
               ∧ flag2 = "--baggageclaim-address") then
      if valid_addr addr1 && valid_addr addr2 then
        inl (forwardWorkerRequest addr1 addr2)
      else inr "invalid command"
    else inr "invalid command"
  | _ => inr "invalid command"
  end.

(** Modelled from the spec: [expectedForwards], declared with the
    request type.  Section 4.7: the count of supplied addresses (1 or
    2), and 1 when none is supplied. *)
Definition expectedForwards (gardenAddr baggageclaimAddr : string) : nat :=
  let supplied (a : string) : nat := if decide (a = "") then 0 else 1 in
  match supplied gardenAddr + supplied baggageclaimAddr with
  | 0 => 1
  | n => n
  end.

End Parser.

(** ** A connection: both consumers together *)

#[global] Instance Worker_eq_dec : EqDecision Worker.
Proof. solve_decision. Defined.

#[global] Instance Process_eq_dec : EqDecision Process.
Proof. solve_decision. Defined.

#[global] Instance forwardedTCPIP_eq_dec : EqDecision forwardedTCPIP.
Proof. solve_decision. Defined.

#[global] Instance conn_event_eq_dec : EqDecision Conn.event.
Proof. solve_decision. Defined.

Module Connection.

(** [handleConn] starts [handleForwardRequests] as a goroutine and the
    two run side by side.  This is the schedule section 5 of the
    specification prescribes for the worker: the [tcpip-forward]
    requests are all served before the [exec] arrives, so every
    [select] of the session handler finds the next record of the queue,
    if one is left.  The gateway's configuration is the forward host;
    the parser is the one modelled from the specification. *)
Definition serve (forwardHost : string)
    (reqs : list Forward.Request) (chans : list Conn.NewChannel)
  : list Forward.event * list Conn.event :=
  let forwards := Forward.handleForwardRequests reqs in
  (forwards,
   Conn.handleConn forwardHost Parser.parseRequest Parser.expectedForwards
     (map Some (Forward.pushed forwards)) chans).

(** A process is joined in a handler trace when it is signalled and
    waited on before the handler returns. *)
Definition joined (p : Process) (t : list Conn.event) : Prop :=
  Conn.Signal p ∈ t ∧ Conn.Wait p ∈ t.

(** A descriptor all of whose addresses lead to the gateway: a Garden
    address on the forward host and a Baggageclaim URL that is absent or
    on the forward host. *)
Definition gateway_routable (forwardHost : string) (w : Worker) : Prop :=
  (∃ port, GardenAddr w = host_port forwardHost port)
  ∧ (BaggageclaimURL w = ""
     ∨ ∃ port, BaggageclaimURL w = "http://" +:+ host_port forwardHost port).

End Connection.

(** ** Scenarios

    Concrete peers, after the end-to-end scenarios of section 8. *)

Module Scenario.

Definition gateway : string := "gateway.example".

(** The descriptor a worker writes on its session channel; it declares
    a Baggageclaim URL of its own. *)
Definition w2 : Worker :=
  {| GardenAddr := "127.0.0.1:7777";
     BaggageclaimURL := "http://10.0.0.5:7788";
     Name := "w2";
     Platform := "linux";
     Tags := [] |}.

(** A well-formed [tcpip-forward] for which the kernel picks [port]. *)
Definition forward (bindIP : string) (bindPort port : N) : Forward.Request :=
  {| Forward.Type_ := "tcpip-forward";
     Forward.Payload := Some {| BindIP := bindIP; BindPort := bindPort |};
     Forward.Listen_ := Forward.Listening port |}.

(** A [tcpip-forward] whose payload does not unmarshal. *)
Definition malformed : Forward.Request :=
  {| Forward.Type_ := "tcpip-forward";
     Forward.Payload := None;
     Forward.Listen_ := Forward.ListenFailed |}.

(** An [exec] of [command], after which the worker writes [w2]. *)
Definition exec (command : string) : Conn.Request :=
  {| Conn.Type_ := "exec";
     Conn.Payload := Some command;
     Conn.Decoded := Some w2 |}.

Definition session (requests : list Conn.Request) : Conn.NewChannel :=
  {| Conn.ChannelType := "session"; Conn.Accepted := Some requests |}.

Definition two_addresses : string :=
  "forward-worker --garden-address 0.0.0.0:7777 --baggageclaim-address 0.0.0.0:7788".

(** Records as [handleForwardRequests] pushes them. *)
Definition forwarded (listener : nat) (bindPort port : N) : forwardedTCPIP :=
  {| bindAddr := host_port "0.0.0.0" bindPort;
     process := Dispatcher listener "0.0.0.0" (if decide (bindPort = 0%N) then port else bindPort);
     boundPort := port |}.

(** [w2] as the gateway republishes it. *)
Definition rewritten (gardenAddr baggageclaimURL : string) : Worker :=
  {| GardenAddr := gardenAddr;
     BaggageclaimURL := baggageclaimURL;
     Name := "w2";
     Platform := "linux";
     Tags := [] |}.

End Scenario.

(** ** heartbeatWorker: the Garden client of a heartbeater *)

Module Heartbeat.

(** [keepaliveDialerFactory(network, address)]: the closure takes the
    network and address the Garden client asks for and ignores them. *)
Definition keepaliveDialerFactory (network address : string)
  : string -> string -> Dialer.answers
    -> Dialer.outcome (option nat * error) * list Dialer.event :=
  fun _ _ => Dialer.keepaliveDialer network address.

(** The dialer [heartbeatWorker] gives the Garden client of the process
    it starts: [keepaliveDialerFactory("tcp", worker.GardenAddr)]. *)
Definition gardenDialer (p : Process)
  : option (string -> string -> Dialer.answers
            -> Dialer.outcome (option nat * error) * list Dialer.event) :=
  match p with
  | Heartbeater worker => Some (keepaliveDialerFactory "tcp" (GardenAddr worker))
  | Dispatcher _ _ _ => None
  end.

End Heartbeat.

(** ** Serve: the accept loop *)

Module Server.

(** What a handler is started with: the global requests and the new
    channels of the connection. *)
Record connection := {
  reqs : list Forward.Request;
  chans : list Conn.NewChannel
}.

(** What one turn of the loop meets: [listener.Accept] fails, or the
    handshake [ssh.NewServerConn] fails, or both succeed. *)
Inductive accept :=
| AcceptFailed
| HandshakeFailed
| Established (c : connection).

(** [Serve], on the outcomes of its successive turns: the connections a
    handler is started for ([go server.handleConn]), and whether the
    loop has returned (it is still accepting when the outcomes run
    out). *)
Fixpoint Serve (accepts : list accept) : list connection * bool :=
  match accepts with
  | [] => ([], false)
  | AcceptFailed :: _ => ([], true)
  | HandshakeFailed :: accepts => Serve accepts
  | Established c :: accepts =>
    let (handled, returned) := Serve accepts in
    (c :: handled, returned)
  end.

Definition established (a : accept) : option connection :=
  match a with
  | Established c => Some c
  | _ => None
  end.

End Server.

(** ** forwardTCPIP: the accept loop of a dispatcher *)

Module Dispatch.

(** The body of the function [forwardTCPIP] runs in the background, on
    the outcomes of its successive [listener.Accept]: [None] for an error
    (the listener was closed, by the interrupt or otherwise), else the
    remote address of the local connection as [forwardLocalConn] will
    split it.  It gives the [forwarded-tcpip] payloads of the calls of
    [forwardLocalConn] it started, in the order it started them ([None]
    for a call that gave up before [OpenChannel]), and whether it has
    exited; it exits with a nil error only. *)
Fixpoint run (p : Process) (accepts : list (option (option (string * option N))))
  : list (option forwardTCPIPChannelRequest) * bool :=
  match accepts with
  | [] => ([], false)
  | None :: _ => ([], true)
  | Some origin :: accepts =>
    let (opened, exited) := run p accepts in
    (Forward.dispatch p origin :: opened, exited)
  end.

End Dispatch.

(** ** Observations on traces *)

Module Observe.

(** The flags of the replies to global requests, in order. *)
Fixpoint replies (t : list Forward.event) : list bool :=
  match t with
  | [] => []
  | Forward.Reply ok _ :: t => ok :: replies t
  | _ :: t => replies t
  end.

(** The listeners opened, and the listeners closed, in order. *)
Fixpoint listened (t : list Forward.event) : list nat :=
  match t with
  | [] => []
  | Forward.Listen l :: t => l :: listened t
  | _ :: t => listened t
  end.

Fixpoint closed (t : list Forward.event) : list nat :=
  match t with
  | [] => []
  | Forward.CloseListener l :: t => l :: closed t
  | _ :: t => closed t
  end.

(** The processes a handler started, the channels it accepted and
    closed, and the flags of its replies to channel requests. *)
Fixpoint started (t : list Conn.event) : list Process :=
  match t with
  | [] => []
  | Conn.Start p :: t => p :: started t
  | _ :: t => started t
  end.

Fixpoint accepted_channels (t : list Conn.event) : list nat :=
  match t with
  | [] => []
  | Conn.Accept c :: t => c :: accepted_channels t
  | _ :: t => accepted_channels t
  end.

Fixpoint closed_channels (t : list Conn.event) : list nat :=
  match t with
  | [] => []
  | Conn.CloseChannel c :: t => c :: closed_channels t
  | _ :: t => closed_channels t
  end.

Fixpoint answered (t : list Conn.event) : list bool :=
  match t with
  | [] => []
  | Conn.Reply ok :: t => ok :: answered t
  | _ :: t => answered t
  end.

(** The records a [collect] of [n] turns receives from a queue. *)
Definition received (n : nat) (queue : list (option forwardedTCPIP))
  : list forwardedTCPIP :=
  omap id (take n queue).

(** [forwards[forwarded.bindAddr] = forwarded] *)
Definition keep (forwards : gmap string forwardedTCPIP) (f : forwardedTCPIP)
  : gmap string forwardedTCPIP :=
  <[bindAddr f := f]> forwards.

(** The calls a dial made, and the lines it printed. *)
Definition is_println (e : Dialer.event) : bool :=
  match e with Dialer.Println _ => true | _ => false end.

Definition calls (t : list Dialer.event) : list Dialer.event :=
  List.filter (fun e => negb (is_println e)) t.

Definition printed (t : list Dialer.event) : nat :=
  length (List.filter is_println t).

Definition failures (errs : list error) : nat :=
  length (List.filter (fun e : error => bool_decide (e ≠ None)) errs).

End Observe.

(** ** The resource checker (atc/api/resourceserver/checker.go) *)

Module Checker.

(** The values [Check] passes along; it looks into none of them. *)
Definition Version := string.
Definition Source := string.
Definition ResourceTypes := list string.

(** What [Check] reads of the [db.Checkable] it is given. *)
Record Checkable := {
  CheckableName : string;
  CheckableType : string;
  CheckableTags : list string;
  CheckTimeout : string;
  TeamID : nat
}.

(** [atc.CheckPlan].  [Timeout] is the duration whose [String()] the
    code stores, in nanoseconds. *)
Record CheckPlan := {
  PlanName : string;
  PlanType : string;
  PlanSource : Source;
  PlanTags : list string;
  PlanTimeout : Z;
  FromVersion : option Version;
  VersionedResourceTypes : ResourceTypes
}.

(** The resource config scope [SetResourceConfig] returns, as the three
    identifiers [Check] reads from it. *)
Record Scope := {
  ScopeID : nat;
  ResourceConfigID : nat;
  BaseResourceTypeID : nat
}.

(** The answers of the collaborators.  [parent] is [None] when
    [resourceTypes.Parent] finds nothing, else the parent's version (nil
    is [None]); [latest] is [None] when [LatestVersion] finds nothing,
    else the version of what it found (nil is [None]).  An [inr] is the
    error returned.  [created] is the triple [CreateCheck] returns, as
    it is: the check (nil is [None]), the flag and the error. *)
Record answers := {
  parent : option (option Version);
  parsedTimeout : Z + string;
  source : Source + string;
  resourceTypes : ResourceTypes + string;
  scope : Scope + string;
  latest : option (option Version) + string;
  created : option nat * bool * error;
  notified : error
}.

Inductive event :=
| ParseDuration (s : string)
| EvaluateSource
| EvaluateResourceTypes
| SetResourceConfig (source : Source) (types : ResourceTypes)
| LatestVersion (scope : nat)
| CreateCheck (scope resourceConfig baseResourceType team : nat)
    (manuallyTriggered : bool) (plan : CheckPlan)
| NotifyChecker.

(** A computation that makes calls and may stop on an error. *)
Definition M (A : Type) : Type := list event * (A + string).

Definition ret {A : Type} (a : A) : M A := ([], inl a).

Definition fail {A : Type} (msg : string) : M A := ([], inr msg).

Definition call {A : Type} (e : event) (answer : A + string) : M A := ([e], answer).

Definition bind {A B : Type} (m : M A) (k : A -> M B) : M B :=
  match m with
  | (t, inl a) => let (t', r) := k a in (t ++ t', r)
  | (t, inr msg) => (t, inr msg)
  end.

Notation "'let*' x := m 'in' k" := (bind m (fun x => k))
  (at level 10, x name, m at level 100, k at level 200, only parsing).

(** [if err != nil { return nil, false, err }] after [CreateCheck]: the
    check and the flag go on, whatever they are, when the error is
    nil. *)
Definition checked (r : option nat * bool * error) : (option nat * bool) + string :=
  match r with
  | (_, _, Some msg) => inr msg
  | (c, new, None) => inl (c, new)
  end.

(** [Check], up to the call of [NotifyChecker]: the check [CreateCheck]
    returned and its flag. *)
Definition check (defaultCheckTimeout : Z) (a : answers) (checkable : Checkable)
    (fromVersion : option Version) : M (option nat * bool) :=
  let* _ :=
    match parent a with
    | Some None => fail "parent type has no version"
    | _ => ret tt
    end in
  let* timeout :=
    if decide (CheckTimeout checkable ≠ "") then
      call (ParseDuration (CheckTimeout checkable)) (parsedTimeout a)
    else ret defaultCheckTimeout in
  let* source := call EvaluateSource (source a) in
  let* versionedResourceTypes := call EvaluateResourceTypes (resourceTypes a) in
  let* resourceConfigScope :=
    call (SetResourceConfig source versionedResourceTypes) (scope a) in
  let* fromVersion :=
    match fromVersion with
    | None =>
      let* found := call (LatestVersion (ScopeID resourceConfigScope)) (latest a) in
      ret (match found with
           | Some version => version
           | None => None
           end)
    | Some v => ret (Some v)
    end in
  let plan := {| PlanName := CheckableName checkable;
                 PlanType := CheckableType checkable;
                 PlanSource := source;
                 PlanTags := CheckableTags checkable;
                 PlanTimeout := timeout;
                 FromVersion := fromVersion;
                 VersionedResourceTypes := versionedResourceTypes |} in
  call (CreateCheck (ScopeID resourceConfigScope)
          (ResourceConfigID resourceConfigScope)
          (BaseResourceTypeID resourceConfigScope)
          (TeamID checkable) true plan)
       (checked (created a)).

(** [Check]: the triple it returns and the calls it made.  On any error
    up to [CreateCheck] the triple is [(nil, false, err)]; otherwise the
    check and the flag of [CreateCheck] are returned untested, with the
    error of [NotifyChecker], nil or not. *)
Definition Check (defaultCheckTimeout : Z) (a : answers) (checkable : Checkable)
    (fromVersion : option Version) : (option nat * bool * error) * list event :=
  match check defaultCheckTimeout a checkable fromVersion with
  | (t, inr msg) => ((None, false, Some msg), t)
  | (t, inl (c, new)) => ((c, new, notified a), t ++ [NotifyChecker])
  end.

(** The plans handed to [CreateCheck] in a trace. *)
Fixpoint plans (t : list event) : list CheckPlan :=
  match t with
  | [] => []
  | CreateCheck _ _ _ _ _ plan :: t => plan :: plans t
  | _ :: t => plans t
  end.

End Checker.

(** Case analysis on the answers [Check] comes to consult, in the order
    it consults them. *)
Ltac split_answers a :=
  repeat (cbn;
    match goal with
    | |- context [Checker.parsedTimeout a] =>
      destruct (Checker.parsedTimeout a) eqn:?
    | |- context [Checker.source a] => destruct (Checker.source a) eqn:?
    | |- context [Checker.resourceTypes a] =>
      destruct (Checker.resourceTypes a) eqn:?
    | |- context [Checker.scope a] => destruct (Checker.scope a) eqn:?
    | |- context [Checker.latest a] => destruct (Checker.latest a) eqn:?
    | |- context [Checker.created a] =>
      destruct (Checker.created a) as [[[?|] ?] [?|]] eqn:?
    end); cbn.

(** * Properties *)

(** ** The keepalive dialer *)

Module DialerFacts.

Import Dialer.

(** A dial that fails returns the error and touches nothing else. *)
Lemma dial_failure_returned network address a err :
  dialed a = inr err ->
  keepaliveDialer network address a
  = (Returned (None, Some err), [DialTimeout network address 5]).
Proof. intros H. unfold keepaliveDialer. now rewrite H. Qed.

(** Once [EnableKeepAlive] has handed back a connection wrapper, the
    dialed connection is returned with a nil error whatever the three
    setters (and [EnableKeepAlive] itself) reported. *)
Lemma setter_failures_ignored network address a conn kac err :
  dialed a = inl conn ->
  enabled a = (Some kac, err) ->
  fst (keepaliveDialer network address a) = Returned (Some conn, None).
Proof. intros Hd He. unfold keepaliveDialer. now rewrite Hd, He. Qed.

(** C6: the dial succeeds and [EnableKeepAlive] fails, returning a nil
    wrapper with its error.  The dialer prints the failure and then
    calls [SetKeepAliveIdle] on the nil wrapper: it panics, where the
    specification has the dialed connection returned. *)
Theorem enable_failure_panics network address conn msg idle count interval :
  keepaliveDialer network address
    {| dialed := inl conn; enabled := (None, Some msg);
       idleSet := idle; countSet := count; intervalSet := interval |}
  = (Panicked,
     [DialTimeout network address 5;
      EnableKeepAlive conn;
      Println ("failed to enable connection keepalive: " +:+ msg)]).
Proof. reflexivity. Qed.

End DialerFacts.

(** ** The global-request consumer *)

Module ForwardFacts.

Import Forward.

Lemma wrap_int_small z : (- 2 ^ 63 <= z <= int_max)%Z -> wrap_int z = z.
Proof.
  unfold wrap_int, int_max. intros H.
  rewrite Z.mod_small; lia.
Qed.

(** Every [tcpip-forward] moves the counter, whatever becomes of the
    request; nothing else does. *)
Lemma counter_step s r :
  forwardedThings (fst (handleForwardRequest s r))
  = if is_forward r then wrap_int (forwardedThings s + 1) else forwardedThings s.
Proof.
  unfold handleForwardRequest, is_forward.
  destruct (decide (Type_ r = "tcpip-forward")) as [Ht|Ht].
  - rewrite bool_decide_eq_true_2 by assumption.
    repeat (case_decide || case_match); reflexivity.
  - now rewrite bool_decide_eq_false_2 by assumption.
Qed.

Lemma forwardRequests_cons r reqs :
  forwardRequests (r :: reqs)
  = ((if is_forward r then 1 else 0) + forwardRequests reqs)%nat.
Proof.
  unfold forwardRequests. simpl.
  destruct (is_forward r); reflexivity.
Qed.

Lemma forwardRequests_le reqs : (forwardRequests reqs <= length reqs)%nat.
Proof. unfold forwardRequests. apply List.filter_length_le. Qed.

(** As long as it does not overflow, the counter is the number of
    [tcpip-forward] requests served. *)
Lemma counter_serve reqs : forall s,
  (0 <= forwardedThings s)%Z ->
  (forwardedThings s + Z.of_nat (forwardRequests reqs) <= int_max)%Z ->
  forwardedThings (fst (serve s reqs))
  = (forwardedThings s + Z.of_nat (forwardRequests reqs))%Z.
Proof.
  induction reqs as [|r reqs IH]; intros s H0 Hmax.
  - unfold forwardRequests. simpl. lia.
  - rewrite forwardRequests_cons in Hmax |- *.
    simpl. pose proof (counter_step s r) as Hstep.
    destruct (handleForwardRequest s r) as [s1 t1]. simpl in Hstep.
    specialize (IH s1).
    destruct (serve s1 reqs) as [s2 t2]. simpl in IH |- *.
    destruct (is_forward r).
    + rewrite wrap_int_small in Hstep by (unfold int_max in *; lia).
      rewrite IH; lia.
    + rewrite IH; lia.
Qed.

Lemma counter_after pre :
  (Z.of_nat (length pre) < int_max)%Z ->
  forwardedThings (fst (serve init pre)) = Z.of_nat (forwardRequests pre).
Proof.
  intros H. pose proof (forwardRequests_le pre).
  rewrite counter_serve; simpl; lia.
Qed.

Lemma accepted_app t t' : accepted (t ++ t') = (accepted t + accepted t')%nat.
Proof. unfold accepted. now rewrite List.filter_app, length_app. Qed.

(** A request is accepted at most once, and only a [tcpip-forward]. *)
Lemma accepted_step s r :
  (accepted (snd (handleForwardRequest s r)) <= if is_forward r then 1 else 0)%nat.
Proof.
  unfold handleForwardRequest, is_forward.
  destruct (decide (Type_ r = "tcpip-forward")) as [Ht|Ht].
  - rewrite bool_decide_eq_true_2 by assumption.
    repeat (case_decide || case_match); simpl; unfold accepted; simpl; lia.
  - rewrite bool_decide_eq_false_2 by assumption. unfold accepted. simpl. lia.
Qed.

Lemma accepted_serve reqs : forall s,
  (accepted (snd (serve s reqs)) <= forwardRequests reqs)%nat.
Proof.
  induction reqs as [|r reqs IH]; intros s.
  - simpl. unfold accepted. simpl. lia.
  - rewrite forwardRequests_cons. simpl.
    pose proof (accepted_step s r) as Hstep.
    destruct (handleForwardRequest s r) as [s1 t1]. simpl in Hstep.
    specialize (IH s1). destruct (serve s1 reqs) as [s2 t2]. simpl in IH |- *.
    rewrite accepted_app. lia.
Qed.

(** A [tcpip-forward] that finds the counter at two or more is
    rejected on the spot. *)
Lemma rejected_when_counted s r :
  Type_ r = "tcpip-forward" ->
  (2 <= forwardedThings s < int_max)%Z ->
  handleForwardRequest s r
  = ({| forwardedThings := (forwardedThings s + 1)%Z;
        deferred := deferred s; opened := opened s |},
     [Reply false None]).
Proof.
  intros Ht H. unfold handleForwardRequest.
  rewrite decide_True by assumption. cbn [forwardedThings deferred opened].
  rewrite wrap_int_small by (unfold int_max in *; lia).
  rewrite decide_True by lia. reflexivity.
Qed.

(** A request is accepted only while the counter, once moved, is at most
    two. *)
Lemma accepted_step_counted s r :
  (2 <= forwardedThings s < int_max)%Z ->
  accepted (snd (handleForwardRequest s r)) = 0%nat.
Proof.
  intros H. unfold handleForwardRequest.
  destruct (decide (Type_ r = "tcpip-forward")); [|reflexivity].
  cbn [forwardedThings]. rewrite wrap_int_small by (unfold int_max in *; lia).
  rewrite decide_True by lia. reflexivity.
Qed.

(** Invariant 2 of the specification: a connection has at most two
    accepted [tcpip-forward] requests, so the queue of capacity two never
    makes the consumer wait. *)
Lemma at_most_two_accepted reqs : forall s,
  (0 <= forwardedThings s)%Z ->
  (forwardedThings s + Z.of_nat (forwardRequests reqs) <= int_max)%Z ->
  (Z.of_nat (accepted (snd (serve s reqs))) <= Z.max 0 (2 - forwardedThings s))%Z.
Proof.
  induction reqs as [|r reqs IH]; intros s H0 Hmax.
  - simpl. unfold accepted. simpl. lia.
  - rewrite forwardRequests_cons in Hmax. simpl.
    pose proof (counter_step s r) as Hc.
    pose proof (accepted_step s r) as Ha.
    pose proof (accepted_step_counted s r) as Hz.
    destruct (handleForwardRequest s r) as [s1 t1]. simpl in Hc, Ha, Hz.
    specialize (IH s1).
    destruct (serve s1 reqs) as [s2 t2]. simpl in IH |- *.
    rewrite accepted_app.
    destruct (is_forward r).
    + rewrite wrap_int_small in Hc by (unfold int_max in *; lia).
      assert (IH' := IH ltac:(lia) ltac:(lia)).
      destruct (decide (2 <= forwardedThings s)%Z).
      * rewrite Hz by lia. lia.
      * lia.
    + assert (IH' := IH ltac:(lia) ltac:(lia)). lia.
Qed.

(** A record on the queue carries the port of a listener the kernel
    bound for one of the requests, and the bind address that request
    declared. *)
Lemma pushed_step s r f :
  f ∈ pushed (snd (handleForwardRequest s r)) ->
  exists req,
    Payload r = Some req
    /\ Listen_ r = Listening (boundPort f)
    /\ bindAddr f = host_port (BindIP req) (BindPort req).
Proof.
  unfold handleForwardRequest. intros H.
  destruct (decide (Type_ r = "tcpip-forward")); [|absurd_member H].
  case_decide; [absurd_member H|].
  destruct (Payload r) as [req|]; [|absurd_member H].
  destruct (Listen_ r) as [| | |port]; simpl in H; absurd_member H.
  subst f. exists req. repeat split.
Qed.

Lemma pushed_app t t' : pushed (t ++ t') = pushed t ++ pushed t'.
Proof.
  induction t as [|e t IH]; [reflexivity|].
  destruct e; simpl; now rewrite ?IH.
Qed.

Lemma pushed_serve reqs : forall s f,
  f ∈ pushed (snd (serve s reqs)) ->
  exists r, r ∈ reqs /\ Listen_ r = Listening (boundPort f).
Proof.
  induction reqs as [|r reqs IH]; intros s f H.
  - simpl in H. apply elem_of_nil in H. contradiction.
  - simpl in H. pose proof (pushed_step s r f) as Hstep.
    destruct (handleForwardRequest s r) as [s1 t1]. simpl in Hstep.
    specialize (IH s1 f).
    destruct (serve s1 reqs) as [s2 t2]. simpl in IH, H.
    rewrite pushed_app in H. apply elem_of_app in H as [H|H].
    + destruct (Hstep H) as (req & _ & Hl & _).
      exists r. split; [apply list_elem_of_here | assumption].
    + destruct (IH H) as (r' & Hin & Hl).
      exists r'. split; [now apply list_elem_of_further | assumption].
Qed.

(** C3: once two [tcpip-forward] requests have been accepted on a
    connection, every later [tcpip-forward] is replied false and that
    reply is all it causes: no listener is opened, no dispatcher is
    spawned, nothing is pushed on the queue.  (The request count stays
    within a Go [int].) *)
Theorem extra_forward_rejected (pre : list Request) (r : Request) :
  (Z.of_nat (length pre) < int_max)%Z ->
  accepted (snd (serve init pre)) = 2%nat ->
  Type_ r = "tcpip-forward" ->
  let s := fst (serve init pre) in
  let (s', t) := handleForwardRequest s r in
  t = [Reply false None]
  /\ spawned t = [] /\ pushed t = []
  /\ opened s' = opened s /\ deferred s' = deferred s.
Proof.
  intros Hlen Hacc Ht s.
  pose proof (accepted_serve pre init) as Hle.
  pose proof (forwardRequests_le pre) as Hn.
  pose proof (counter_after pre Hlen) as Hc. fold s in Hc.
  rewrite rejected_when_counted by (assumption || lia).
  repeat split.
Qed.

Lemma extra_forward_rejected_witness :
  let pre := [Scenario.forward "0.0.0.0" 7777 40001;
              Scenario.forward "0.0.0.0" 7788 40002] in
  let (s', t) := handleForwardRequest (fst (serve init pre))
                   (Scenario.forward "0.0.0.0" 7799 40003) in
  t = [Reply false None]
  /\ spawned t = [] /\ pushed t = []
  /\ opened s' = 2%nat /\ deferred s' = [1%nat; 0%nat].
Proof.
  apply (extra_forward_rejected
           [Scenario.forward "0.0.0.0" 7777 40001;
            Scenario.forward "0.0.0.0" 7788 40002]
           (Scenario.forward "0.0.0.0" 7799 40003)).
  - vm_compute. reflexivity.
  - vm_compute. reflexivity.
  - reflexivity.
Defined.

(** C9: the counter counts every [tcpip-forward] request, accepted or
    not: after any request list it holds the number of [tcpip-forward]
    requests, one more after the next one whatever its payload and
    whatever listening gives; so once two have been served, accepted or
    not, every later one is replied false and does nothing else, even
    when no listener was ever opened.  (The request count stays within
    a Go [int].) *)
Theorem counter_counts_every_request (pre : list Request) (r : Request) :
  (Z.of_nat (length pre) < int_max)%Z ->
  Type_ r = "tcpip-forward" ->
  let s := fst (serve init pre) in
  forwardedThings s = Z.of_nat (forwardRequests pre)
  /\ forwardedThings (fst (handleForwardRequest s r))
     = (Z.of_nat (forwardRequests pre) + 1)%Z
  /\ ((2 <= forwardRequests pre)%nat ->
      snd (handleForwardRequest s r) = [Reply false None]
      /\ opened (fst (handleForwardRequest s r)) = opened s).
Proof.
  intros Hlen Ht s.
  pose proof (forwardRequests_le pre) as Hn.
  pose proof (counter_after pre Hlen) as Hc. fold s in Hc.
  split; [assumption|]. split.
  - rewrite counter_step. unfold is_forward.
    rewrite bool_decide_eq_true_2 by assumption.
    rewrite wrap_int_small by (unfold int_max in *; lia). lia.
  - intros H2. rewrite rejected_when_counted by (assumption || lia).
    split; reflexivity.
Qed.

Lemma counter_counts_every_request_witness :
  let pre := [Scenario.malformed; Scenario.malformed] in
  let r := Scenario.forward "0.0.0.0" 7777 40001 in
  let s := fst (serve init pre) in
  opened s = 0%nat
  /\ forwardedThings s = 2%Z
  /\ forwardedThings (fst (handleForwardRequest s r)) = 3%Z
  /\ snd (handleForwardRequest s r) = [Reply false None]
  /\ opened (fst (handleForwardRequest s r)) = 0%nat.
Proof.
  intros pre r s.
  destruct (counter_counts_every_request pre r) as (H1 & H2 & H3).
  - vm_compute. reflexivity.
  - reflexivity.
  - split; [reflexivity|]. split; [exact H1|]. split; [exact H2|].
    apply H3. vm_compute. lia.
Defined.

(** C5, as stated, fails: a client that asks for port 7777 is told
    the port the kernel picked, here 40001, not the one it asked
    for. *)
Lemma requested_port_not_reported :
  let r := Scenario.forward "0.0.0.0" 7777 40001 in
  exists req resp,
    Payload r = Some req /\ BindPort req <> 0%N
    /\ snd (handleForwardRequest init r)
       = [Listen 0; Spawn (Dispatcher 0 "0.0.0.0" 7777);
          Push {| bindAddr := "0.0.0.0:7777";
                  process := Dispatcher 0 "0.0.0.0" 7777;
                  boundPort := 40001 |};
          Reply true (Some resp)]
    /\ BoundPort resp <> BindPort req.
Proof.
  exists {| BindIP := "0.0.0.0"; BindPort := 7777 |}, {| BoundPort := 40001 |}.
  repeat split; [discriminate | discriminate].
Qed.

(** C5, amended: for every accepted [tcpip-forward], the port in the
    reply is the one the kernel picked, whatever the client asked for;
    the port the dispatcher puts in the [forwarded-tcpip] channels it
    opens is the kernel's when the client asked for port zero and the
    client's own otherwise. *)
Theorem accepted_forward_ports s r resp :
  Reply true resp ∈ snd (handleForwardRequest s r) ->
  exists req port,
    Payload r = Some req /\ Listen_ r = Listening port
    /\ resp = Some {| BoundPort := port |}
    /\ exists p,
         spawned (snd (handleForwardRequest s r)) = [p]
         /\ forall origin ch,
              dispatch p origin = Some ch ->
              ForwardIP ch = BindIP req
              /\ (BindPort req = 0%N -> ForwardPort ch = port)
              /\ (BindPort req <> 0%N -> ForwardPort ch = BindPort req).
Proof.
  unfold handleForwardRequest. intros H.
  destruct (decide (Type_ r = "tcpip-forward")); [|absurd_member H].
  case_decide; [absurd_member H|].
  destruct (Payload r) as [req|]; [|absurd_member H].
  destruct (Listen_ r) as [| | |port]; simpl in H; absurd_member H.
  exists req, port. injection H as ->. do 3 (split; [reflexivity|]).
  eexists. split; [reflexivity|].
  intros origin ch Hch. unfold forwardTCPIP, dispatch, forwardLocalConn in Hch.
  destruct origin as [[host [oport|]]|]; try discriminate Hch.
  injection Hch as <-. simpl.
  split; [reflexivity|]. split; intros Hp; case_decide; congruence.
Qed.

Lemma accepted_forward_ports_witness :
  exists req port,
    Payload (Scenario.forward "0.0.0.0" 0 40001) = Some req
    /\ Listen_ (Scenario.forward "0.0.0.0" 0 40001) = Listening port
    /\ Some {| BoundPort := 40001 |} = Some {| BoundPort := port |}
    /\ exists p,
         spawned (snd (handleForwardRequest init (Scenario.forward "0.0.0.0" 0 40001)))
         = [p]
         /\ forall origin ch,
              dispatch p origin = Some ch ->
              ForwardIP ch = BindIP req
              /\ (BindPort req = 0%N -> ForwardPort ch = port)
              /\ (BindPort req <> 0%N -> ForwardPort ch = BindPort req).
Proof.
  apply (accepted_forward_ports init (Scenario.forward "0.0.0.0" 0 40001)
           (Some {| BoundPort := 40001 |})).
  vm_compute. do 3 apply list_elem_of_further. apply list_elem_of_here.
Defined.

End ForwardFacts.

(** ** The session handler *)

Module ConnFacts.

Import Conn.

Lemma published_app t t' : published (t ++ t') = published t ++ published t'.
Proof.
  induction t as [|e t IH]; [reflexivity|].
  destruct e as [| | | |[]| | | | |]; simpl; now rewrite ?IH.
Qed.

(** Collecting leaves the deferred channels alone. *)
Lemma collect_channels n : forall s forwards,
  channels (fst (collect n s forwards)) = channels s.
Proof.
  induction n as [|n IH]; intros s forwards; [reflexivity|].
  simpl. destruct (forwardedTCPIPs s) as [|[f|] q]; now rewrite IH.
Qed.

(** Whatever the map of forwards holds was received from the queue. *)
Lemma collect_from_queue n : forall s forwards k f,
  snd (collect n s forwards) !! k = Some f ->
  forwards !! k = Some f \/ Some f ∈ forwardedTCPIPs s.
Proof.
  induction n as [|n IH]; intros s forwards k f H; [now left|].
  simpl in H. destruct (forwardedTCPIPs s) as [|[f'|] q] eqn:Hq.
  - apply IH in H. now rewrite Hq in H.
  - apply IH in H as [H|H]; simpl in H.
    + apply lookup_insert_Some in H as [[_ ->]|[_ H]].
      * right. apply list_elem_of_here.
      * now left.
    + right. now apply list_elem_of_further.
  - apply IH in H as [H|H]; simpl in H; [now left|].
    right. now apply list_elem_of_further.
Qed.

(** A map of size one lists as its single binding. *)
Lemma map_to_list_size_1 (forwards : gmap string forwardedTCPIP) :
  size forwards = 1 ->
  exists k f, map_to_list forwards = [(k, f)] /\ forwards !! k = Some f.
Proof.
  intros H. pose proof (length_map_to_list forwards) as Hlen.
  rewrite H in Hlen.
  destruct (map_to_list forwards) as [|[k f] [|]] eqn:Hl; try discriminate Hlen.
  exists k, f. split; [reflexivity|].
  apply elem_of_map_to_list. rewrite Hl. apply list_elem_of_here.
Qed.

Section Handler.

Variable forwardHost : string.
Variable parseRequest : string -> workerRequest + string.
Variable expectedForwards : string -> string -> nat.

Local Abbreviation continuouslyRegisterForwardedWorker :=
  (continuouslyRegisterForwardedWorker forwardHost).
Local Abbreviation register_forwards := (register_forwards forwardHost).
Local Abbreviation forwardWorker := (forwardWorker forwardHost expectedForwards).
Local Abbreviation handleRequest :=
  (handleRequest forwardHost parseRequest expectedForwards).
Local Abbreviation handleRequests :=
  (handleRequests forwardHost parseRequest expectedForwards).
Local Abbreviation handleChannel :=
  (handleChannel forwardHost parseRequest expectedForwards).
Local Abbreviation handleChannels :=
  (handleChannels forwardHost parseRequest expectedForwards).
Local Abbreviation handleConnFrom :=
  (handleConnFrom forwardHost parseRequest expectedForwards).

(** What [continuouslyRegisterForwardedWorker] hands to the
    heartbeater: the decoded descriptor with [GardenAddr] replaced,
    and [BaggageclaimURL] replaced only for a nonzero port. *)
Lemma forwarded_descriptor decoded gardenPort baggageclaimPort w' :
  continuouslyRegisterForwardedWorker decoded gardenPort baggageclaimPort
  = Some (Heartbeater w') ->
  exists worker,
    decoded = Some worker
    /\ GardenAddr w' = host_port forwardHost gardenPort
    /\ BaggageclaimURL w'
       = (if decide (baggageclaimPort ≠ 0%N)
          then "http://" +:+ host_port forwardHost baggageclaimPort
          else BaggageclaimURL worker)
    /\ Name w' = Name worker
    /\ Platform w' = Platform worker
    /\ Tags w' = Tags worker.
Proof.
  unfold Conn.continuouslyRegisterForwardedWorker, heartbeatWorker.
  destruct decoded as [worker|]; [|discriminate].
  intros H. exists worker. split; [reflexivity|].
  case_decide; injection H as <-; simpl; repeat split.
Qed.

Lemma registered_published s started w' :
  w' ∈ published (snd (then_wait (registered s started))) ->
  started = Some (Heartbeater w').
Proof.
  destruct started as [[l ip port|w]|]; simpl; intros H.
  - apply elem_of_nil in H. contradiction.
  - apply list_elem_of_singleton in H. now subst.
  - apply elem_of_nil in H. contradiction.
Qed.

(** The descriptors a [forward-worker] branch publishes, by the size
    of the map of forwards. *)
Lemma register_forwards_published s channel decoded gardenAddr baggageclaimAddr
    (forwards : gmap string forwardedTCPIP) w' :
  w' ∈ published
         (snd (register_forwards s channel decoded gardenAddr baggageclaimAddr
                 forwards)) ->
  (size forwards = 1
   /\ exists k gardenForward,
        map_to_list forwards = [(k, gardenForward)]
        /\ forwards !! k = Some gardenForward
        /\ continuouslyRegisterForwardedWorker decoded (boundPort gardenForward) 0
           = Some (Heartbeater w'))
  \/ (size forwards = 2
      /\ exists gardenForward baggageclaimForward,
           forwards !! gardenAddr = Some gardenForward
           /\ forwards !! baggageclaimAddr = Some baggageclaimForward
           /\ continuouslyRegisterForwardedWorker decoded
                (boundPort gardenForward) (boundPort baggageclaimForward)
              = Some (Heartbeater w')).
Proof.
  unfold Conn.register_forwards. intros H.
  destruct (size forwards) as [|[|[|n]]] eqn:Hsize.
  - simpl in H. apply elem_of_nil in H. contradiction.
  - left. split; [reflexivity|].
    destruct (map_to_list_size_1 forwards Hsize) as (k & f & Hl & Hk).
    rewrite Hl in H. apply registered_published in H.
    exists k, f. auto.
  - right. split; [reflexivity|].
    destruct (forwards !! gardenAddr) as [gf|];
      [|simpl in H; apply elem_of_nil in H; contradiction].
    destruct (forwards !! baggageclaimAddr) as [bf|];
      [|simpl in H; apply elem_of_nil in H; contradiction].
    apply registered_published in H. exists gf, bf. auto.
  - simpl in H. apply elem_of_nil in H. contradiction.
Qed.

(** C1, amended: every descriptor a forwarded session publishes has
    its [GardenAddr] rewritten to the forward host and the bound port
    of a forward received from the queue.  Its [BaggageclaimURL] is
    rewritten to the forward host only on the two-forward path (and
    for a nonzero bound port); on the single-forward path it is what
    the worker declared, unchanged. *)
Theorem forwarded_descriptor_addresses s channel decoded gardenAddr
    baggageclaimAddr w' :
  w' ∈ published (snd (forwardWorker s channel decoded gardenAddr baggageclaimAddr)) ->
  let forwards :=
    snd (collect (expectedForwards gardenAddr baggageclaimAddr) s ∅) in
  exists worker gardenForward,
    decoded = Some worker
    /\ Some gardenForward ∈ forwardedTCPIPs s
    /\ GardenAddr w' = host_port forwardHost (boundPort gardenForward)
    /\ (size forwards = 1 -> BaggageclaimURL w' = BaggageclaimURL worker)
    /\ (size forwards = 2 ->
        exists baggageclaimForward,
          forwards !! baggageclaimAddr = Some baggageclaimForward
          /\ BaggageclaimURL w'
             = if decide (boundPort baggageclaimForward ≠ 0%N)
               then "http://" +:+ host_port forwardHost (boundPort baggageclaimForward)
               else BaggageclaimURL worker).
Proof.
  unfold Conn.forwardWorker.
  pose proof (collect_from_queue
                (expectedForwards gardenAddr baggageclaimAddr) s ∅) as Hq.
  destruct (collect (expectedForwards gardenAddr baggageclaimAddr) s ∅)
    as [s1 forwards].
  simpl in Hq |- *. intros H.
  apply register_forwards_published in H
    as [(Hsize & k & gf & _ & Hk & H)|(Hsize & gf & bf & Hg & Hb & H)];
    apply forwarded_descriptor in H as (worker & -> & HG & HB & _).
  - exists worker, gf. split; [reflexivity|].
    apply Hq in Hk as [Hk|Hk]; [now rewrite lookup_empty in Hk|].
    split; [assumption|]. split; [assumption|].
    split; [intros _; rewrite HB; now rewrite decide_False by auto|].
    intros H2. congruence.
  - exists worker, gf. split; [reflexivity|].
    apply Hq in Hg as [Hg|Hg]; [now rewrite lookup_empty in Hg|].
    split; [assumption|]. split; [assumption|].
    split; [intros H1; congruence|].
    intros _. exists bf. split; assumption.
Qed.

(** C4, amended: a [forward-worker] registration publishes a descriptor
    whose [GardenAddr] is the forward host, a colon and the bound port
    of the garden forward: the only entry of the map of collected
    forwards, or the entry under the declared garden address when the
    map has two.  When the map has two entries, that is when two
    forwards were collected under two distinct bind addresses, its
    [BaggageclaimURL] is [http://], the forward host, a colon and the
    bound port of the entry under the declared baggageclaim address.
    When the map has one entry, however many tunnels were established,
    its [BaggageclaimURL] is the one the worker declared.  Bound ports
    are ports of listening sockets, hence not zero. *)
Theorem forwarded_registration_addresses s channel decoded gardenAddr
    baggageclaimAddr w' :
  (forall f, Some f ∈ forwardedTCPIPs s -> boundPort f <> 0%N) ->
  w' ∈ published (snd (forwardWorker s channel decoded gardenAddr baggageclaimAddr)) ->
  let forwards :=
    snd (collect (expectedForwards gardenAddr baggageclaimAddr) s ∅) in
  (size forwards = 1
   /\ exists k gardenForward worker,
        map_to_list forwards = [(k, gardenForward)]
        /\ decoded = Some worker
        /\ GardenAddr w' = host_port forwardHost (boundPort gardenForward)
        /\ BaggageclaimURL w' = BaggageclaimURL worker)
  \/ (size forwards = 2
      /\ exists gardenForward baggageclaimForward,
           forwards !! gardenAddr = Some gardenForward
           /\ forwards !! baggageclaimAddr = Some baggageclaimForward
           /\ GardenAddr w' = host_port forwardHost (boundPort gardenForward)
           /\ BaggageclaimURL w'
              = "http://" +:+ host_port forwardHost (boundPort baggageclaimForward)).
Proof.
  unfold Conn.forwardWorker. intros Hports.
  pose proof (collect_from_queue
                (expectedForwards gardenAddr baggageclaimAddr) s ∅) as Hq.
  destruct (collect (expectedForwards gardenAddr baggageclaimAddr) s ∅)
    as [s1 forwards].
  simpl in Hq |- *. intros H.
  apply register_forwards_published in H
    as [(Hsize & k & gf & Hl & Hk & H)|(Hsize & gf & bf & Hg & Hb & H)];
    apply forwarded_descriptor in H as (worker & -> & HG & HB & _).
  - left. split; [assumption|]. exists k, gf, worker.
    do 3 (split; [assumption || reflexivity|]).
    rewrite HB. now rewrite decide_False by auto.
  - right. split; [assumption|]. exists gf, bf.
    do 3 (split; [assumption|]).
    rewrite HB. apply decide_True.
    apply Hq in Hb as [Hb|Hb]; [now rewrite lookup_empty in Hb|].
    now apply Hports.
Qed.

(** Requests served before a later one are served the same way, and
    what they left behind is where the later ones start. *)
Lemma handleRequests_app pre : forall s channel post s1 t1,
  handleRequests s channel pre = (Continue, s1, t1) ->
  handleRequests s channel (pre ++ post)
  = let '(f, s2, t2) := handleRequests s1 channel post in (f, s2, t1 ++ t2).
Proof.
  induction pre as [|req pre IH]; intros s channel post s1 t1 H.
  - injection H as <- <-. simpl.
    now destruct (handleRequests s channel post) as [[f s2] t2].
  - simpl in H |- *.
    destruct (handleRequest s channel req) as [[[] s'] t']; [|discriminate H].
    destruct (handleRequests s' channel pre) as [[f' s''] t''] eqn:Hpre.
    injection H as -> -> <-.
    rewrite (IH _ _ post _ _ Hpre).
    destruct (handleRequests s1 channel post) as [[f s2] t2].
    now rewrite app_assoc.
Qed.

(** Every process recorded by the time the handler stops is signalled
    and waited on before it returns. *)
Lemma recorded_processes_joined s chans p :
  p ∈ processes (fst (handleChannels s chans)) ->
  Connection.joined p (handleConnFrom s chans).
Proof.
  unfold Conn.handleConnFrom, unwind, cleanup, Connection.joined.
  destruct (handleChannels s chans) as [s' t]. simpl. intros H.
  split; rewrite !elem_of_app.
  - right. right. left. left. now apply list_elem_of_fmap_2.
  - right. right. left. right. now apply list_elem_of_fmap_2.
Qed.

(** C7, amended: a [forward-worker] exec, reached on a session channel
    after requests that did not end the handler, for which no forward is
    collected, or the map of collected forwards has two entries (two
    records collected under two distinct bind addresses) while the
    declared garden address or the declared baggageclaim address is not
    a key of the map.  The
    handler writes one diagnostic on the channel and returns: from then
    on the trace holds the deferred closes and the cleanup, which signals
    and then awaits every recorded process, and no heartbeater is
    started. *)
Theorem forward_worker_without_forwards s newChannel pre req more rest command
    gardenAddr baggageclaimAddr s1 t1 :
  ChannelType newChannel = "session" ->
  Accepted newChannel = Some (pre ++ req :: more) ->
  let channel := length (channels s) in
  handleRequests {| processes := processes s;
                    channels := channel :: channels s;
                    forwardedTCPIPs := forwardedTCPIPs s |} channel pre
  = (Continue, s1, t1) ->
  Type_ req = "exec" ->
  Payload req = Some command ->
  parseRequest command = inl (forwardWorkerRequest gardenAddr baggageclaimAddr) ->
  let s2 := fst (collect (expectedForwards gardenAddr baggageclaimAddr) s1 ∅) in
  let forwards := snd (collect (expectedForwards gardenAddr baggageclaimAddr) s1 ∅) in
  size forwards = 0
  \/ (size forwards = 2
      /\ (forwards !! gardenAddr = None \/ forwards !! baggageclaimAddr = None)) ->
  exists msg,
    handleConnFrom s (newChannel :: rest)
    = Accept channel :: t1 ++ [Fprintf channel msg]
      ++ map CloseChannel (channels s2)
      ++ map Signal (processes s2) ++ map Wait (processes s2) ++ [CloseConn].
Proof.
  intros Hty Hacc channel Hpre Hexec Hpay Hparse s2 forwards Hsize.
  assert (exists msg,
             handleRequest s1 channel req = (Return, s2, [Fprintf channel msg]))
    as [msg Hreq].
  { unfold Conn.handleRequest.
    rewrite decide_False by (intros Hn; now apply Hn).
    rewrite Hpay, Hparse. unfold Conn.forwardWorker.
    subst s2 forwards.
    destruct (collect (expectedForwards gardenAddr baggageclaimAddr) s1 ∅)
      as [s2 forwards].
    simpl in Hsize |- *. unfold Conn.register_forwards.
    destruct Hsize as [->|[-> [Hg|Hb]]].
    - eexists. reflexivity.
    - rewrite Hg. eexists. reflexivity.
    - rewrite Hb. destruct (forwards !! gardenAddr); eexists; reflexivity. }
  exists msg.
  unfold Conn.handleConnFrom. cbn [Conn.handleChannels]. unfold Conn.handleChannel.
  rewrite decide_False by (intros Hn; now apply Hn).
  rewrite Hacc. fold channel.
  rewrite (handleRequests_app _ _ _ (req :: more) _ _ Hpre).
  cbn [Conn.handleRequests]. rewrite Hreq.
  unfold unwind, cleanup. simpl. rewrite <- !app_assoc. reflexivity.
Qed.

(** C8, amended: when the command of an [exec] request fails to parse,
    the handler writes a diagnostic on the channel, replies false, and
    goes on to the next request of the same channel with its state
    unchanged: the session is not ended. *)
Theorem invalid_command_is_skipped s channel req more command err :
  Type_ req = "exec" ->
  Payload req = Some command ->
  parseRequest command = inr err ->
  handleRequests s channel (req :: more)
  = let '(f, s', t) := handleRequests s channel more in
    (f, s', [Fprintf channel ("invalid command: " +:+ err); Reply false] ++ t).
Proof.
  intros Hexec Hpay Hparse. cbn [Conn.handleRequests]. unfold Conn.handleRequest.
  rewrite decide_False by (intros Hn; now apply Hn).
  rewrite Hpay, Hparse. reflexivity.
Qed.

(** C10: two forwards are expected and the two records received carry
    the same bind address.  The second replaces the first in the map,
    which has one entry; the single-forward branch runs and the worker is
    registered with the bound port of the second record as its Garden
    address and with its Baggageclaim URL as it declared it.  Both
    dispatchers and the heartbeater are recorded. *)
Theorem same_bind_address_registers_garden_only s channel worker gardenAddr
    baggageclaimAddr first second queue :
  expectedForwards gardenAddr baggageclaimAddr = 2 ->
  forwardedTCPIPs s = Some first :: Some second :: queue ->
  bindAddr first = bindAddr second ->
  let forwards := snd (collect 2 s ∅) in
  let w' := {| GardenAddr := host_port forwardHost (boundPort second);
               BaggageclaimURL := BaggageclaimURL worker;
               Name := Name worker;
               Platform := Platform worker;
               Tags := Tags worker |} in
  forwards = {[ bindAddr second := second ]}
  /\ size forwards = 1
  /\ forwardWorker s channel (Some worker) gardenAddr baggageclaimAddr
     = (Continue,
        {| processes := processes s ++ [process first; process second; Heartbeater w'];
           channels := channels s;
           forwardedTCPIPs := queue |},
        [Start (Heartbeater w'); ConnWait]).
Proof.
  intros Hexp Hq Hsame forwards w'. subst forwards.
  unfold Conn.forwardWorker. rewrite Hexp. cbn [collect].
  rewrite Hq. cbn [forwardedTCPIPs processes channels].
  rewrite Hsame, insert_insert_eq, insert_empty. cbn [fst snd].
  split; [reflexivity|]. split; [apply map_size_singleton|].
  unfold Conn.register_forwards.
  rewrite map_size_singleton, map_to_list_singleton.
  unfold Conn.continuouslyRegisterForwardedWorker, registered, then_wait,
    record_process, heartbeatWorker.
  rewrite decide_False by (intros Hn; now apply Hn).
  cbn. rewrite <- !app_assoc. reflexivity.
Qed.

End Handler.

(** *** The theorems at work on the scenarios *)

(** C1, as stated, fails: on the single-forward path the worker's own
    Baggageclaim URL reaches the orchestrator.  Scenario S2 with a
    worker that declares one. *)
Lemma declared_baggageclaim_published :
  let handler :=
    snd (Connection.serve Scenario.gateway
           [Scenario.forward "0.0.0.0" 0 40001]
           [Scenario.session [Scenario.exec "forward-worker"]]) in
  exists w',
    published handler = [w']
    /\ GardenAddr w' = "gateway.example:40001"
    /\ BaggageclaimURL w' = BaggageclaimURL Scenario.w2
    /\ ~ Connection.gateway_routable Scenario.gateway w'.
Proof.
  exists (Scenario.rewritten "gateway.example:40001" "http://10.0.0.5:7788").
  split; [vm_compute; reflexivity|].
  split; [reflexivity|]. split; [reflexivity|].
  intros [_ [H|[port H]]]; simpl in H; discriminate H.
Qed.

Lemma forwarded_descriptor_addresses_witness :
  let s := init [Some (Scenario.forwarded 0 0 40001)] in
  let w' := Scenario.rewritten "gateway.example:40001" "http://10.0.0.5:7788" in
  let forwards := snd (collect (Parser.expectedForwards "" "") s ∅) in
  exists worker gardenForward,
    Some Scenario.w2 = Some worker
    /\ Some gardenForward ∈ forwardedTCPIPs s
    /\ GardenAddr w' = host_port Scenario.gateway (boundPort gardenForward)
    /\ (size forwards = 1 -> BaggageclaimURL w' = BaggageclaimURL worker)
    /\ (size forwards = 2 ->
        exists baggageclaimForward,
          forwards !! "" = Some baggageclaimForward
          /\ BaggageclaimURL w'
             = if decide (boundPort baggageclaimForward ≠ 0%N)
               then "http://" +:+ host_port Scenario.gateway (boundPort baggageclaimForward)
               else BaggageclaimURL worker).
Proof.
  apply (forwarded_descriptor_addresses Scenario.gateway Parser.expectedForwards
           (init [Some (Scenario.forwarded 0 0 40001)]) 0 (Some Scenario.w2) "" ""
           (Scenario.rewritten "gateway.example:40001" "http://10.0.0.5:7788")).
  vm_compute. apply list_elem_of_here.
Defined.

(** C4, as stated, fails: two tunnels are established and the worker
    is registered with its own Baggageclaim URL.  Once with both tunnels
    declared under one bind address (the second record replaces the
    first in the map), once with a command that expects one forward
    (the second record is never received). *)
Lemma two_tunnels_one_rewrite :
  (let (forwards, handler) :=
     Connection.serve Scenario.gateway
       [Scenario.forward "0.0.0.0" 7777 40001;
        Scenario.forward "0.0.0.0" 7777 40002]
       [Scenario.session [Scenario.exec Scenario.two_addresses]] in
   Forward.accepted forwards = 2
   /\ published handler
      = [Scenario.rewritten "gateway.example:40002" "http://10.0.0.5:7788"])
  /\ (let (forwards, handler) :=
        Connection.serve Scenario.gateway
          [Scenario.forward "0.0.0.0" 7777 40001;
           Scenario.forward "0.0.0.0" 7788 40002]
          [Scenario.session [Scenario.exec "forward-worker"]] in
      Forward.accepted forwards = 2
      /\ published handler
         = [Scenario.rewritten "gateway.example:40001" "http://10.0.0.5:7788"])
  /\ BaggageclaimURL Scenario.w2 = "http://10.0.0.5:7788"
  /\ forall port,
       "http://10.0.0.5:7788" <> "http://" +:+ host_port Scenario.gateway port.
Proof.
  split; [vm_compute; split; reflexivity|].
  split; [vm_compute; split; reflexivity|].
  split; [reflexivity|].
  intros port H. simpl in H. discriminate H.
Qed.

(** Scenario S3: both addresses are rewritten. *)
Lemma forwarded_registration_addresses_witness :
  let s := init [Some (Scenario.forwarded 0 7777 40001);
                 Some (Scenario.forwarded 1 7788 40002)] in
  let w' := Scenario.rewritten "gateway.example:40001" "http://gateway.example:40002" in
  let forwards :=
    snd (collect (Parser.expectedForwards "0.0.0.0:7777" "0.0.0.0:7788") s ∅) in
  (size forwards = 1
   /\ exists k gardenForward worker,
        map_to_list forwards = [(k, gardenForward)]
        /\ Some Scenario.w2 = Some worker
        /\ GardenAddr w' = host_port Scenario.gateway (boundPort gardenForward)
        /\ BaggageclaimURL w' = BaggageclaimURL worker)
  \/ (size forwards = 2
      /\ exists gardenForward baggageclaimForward,
           forwards !! "0.0.0.0:7777" = Some gardenForward
           /\ forwards !! "0.0.0.0:7788" = Some baggageclaimForward
           /\ GardenAddr w' = host_port Scenario.gateway (boundPort gardenForward)
           /\ BaggageclaimURL w'
              = "http://" +:+ host_port Scenario.gateway (boundPort baggageclaimForward)).
Proof.
  apply (forwarded_registration_addresses Scenario.gateway Parser.expectedForwards
           (init [Some (Scenario.forwarded 0 7777 40001);
                  Some (Scenario.forwarded 1 7788 40002)])
           0 (Some Scenario.w2) "0.0.0.0:7777" "0.0.0.0:7788"
           (Scenario.rewritten "gateway.example:40001" "http://gateway.example:40002")).
  - intros f H. cbn [init forwardedTCPIPs] in H.
    repeat (apply elem_of_cons in H as [H|H]; [injection H as ->; discriminate|]).
    apply elem_of_nil in H. contradiction.
  - vm_compute. apply list_elem_of_here.
Defined.

(** C7, as stated, fails: two records are collected, under one bind
    address, and neither declared address is a key of the map; the map
    has one entry, so the single-forward branch runs: a heartbeater is
    started and no diagnostic is written. *)
Lemma two_collected_under_one_address :
  let queue := [Some (Scenario.forwarded 0 9999 40001);
                Some (Scenario.forwarded 1 9999 40002)] in
  let forwards :=
    snd (collect (Parser.expectedForwards "0.0.0.0:7777" "0.0.0.0:7788")
           (init queue) ∅) in
  let w' := Scenario.rewritten "gateway.example:40002" "http://10.0.0.5:7788" in
  Parser.parseRequest Scenario.two_addresses
  = inl (forwardWorkerRequest "0.0.0.0:7777" "0.0.0.0:7788")
  /\ Parser.expectedForwards "0.0.0.0:7777" "0.0.0.0:7788" = 2
  /\ Observe.received 2 queue
     = [Scenario.forwarded 0 9999 40001; Scenario.forwarded 1 9999 40002]
  /\ forwards !! "0.0.0.0:7777" = None
  /\ forwards !! "0.0.0.0:7788" = None
  /\ handleConn Scenario.gateway Parser.parseRequest Parser.expectedForwards queue
       [Scenario.session [Scenario.exec Scenario.two_addresses]]
     = [Accept 0; Start (Heartbeater w'); ConnWait; CloseChannel 0;
        Signal (Dispatcher 0 "0.0.0.0" 9999);
        Signal (Dispatcher 1 "0.0.0.0" 9999);
        Signal (Heartbeater w');
        Wait (Dispatcher 0 "0.0.0.0" 9999);
        Wait (Dispatcher 1 "0.0.0.0" 9999);
        Wait (Heartbeater w');
        CloseConn].
Proof. repeat split; vm_compute; reflexivity. Qed.

(** Both halves at work.  A worker that asks to be forwarded and opened
    no tunnel; and a worker that opened two tunnels, of which the one it
    declares for Baggageclaim is not among them: the diagnostic is
    written and both dispatchers are signalled and awaited. *)
Lemma forward_worker_without_forwards_witness :
  (exists msg,
     handleConn Scenario.gateway Parser.parseRequest Parser.expectedForwards []
       [Scenario.session [Scenario.exec "forward-worker"]]
     = Accept 0 :: [] ++ [Fprintf 0 msg]
       ++ map CloseChannel [0]
       ++ map Signal [] ++ map Wait [] ++ [CloseConn])
  /\ (exists msg,
        handleConn Scenario.gateway Parser.parseRequest Parser.expectedForwards
          [Some (Scenario.forwarded 0 7777 40001);
           Some (Scenario.forwarded 1 7799 40002)]
          [Scenario.session [{| Type_ := "shell"; Payload := None; Decoded := None |};
                             Scenario.exec Scenario.two_addresses;
                             Scenario.exec "register-worker"]]
        = Accept 0 :: [Reply false] ++ [Fprintf 0 msg]
          ++ map CloseChannel [0]
          ++ map Signal [Dispatcher 0 "0.0.0.0" 7777; Dispatcher 1 "0.0.0.0" 7799]
          ++ map Wait [Dispatcher 0 "0.0.0.0" 7777; Dispatcher 1 "0.0.0.0" 7799]
          ++ [CloseConn]).
Proof.
  split.
  - apply (forward_worker_without_forwards Scenario.gateway Parser.parseRequest
             Parser.expectedForwards (init [])
             (Scenario.session [Scenario.exec "forward-worker"])
             [] (Scenario.exec "forward-worker") [] []
             "forward-worker" "" "" _ [] eq_refl eq_refl eq_refl eq_refl eq_refl
             eq_refl).
    left. vm_compute. reflexivity.
  - apply (forward_worker_without_forwards Scenario.gateway Parser.parseRequest
             Parser.expectedForwards
             (init [Some (Scenario.forwarded 0 7777 40001);
                    Some (Scenario.forwarded 1 7799 40002)])
             (Scenario.session
                [{| Type_ := "shell"; Payload := None; Decoded := None |};
                 Scenario.exec Scenario.two_addresses;
                 Scenario.exec "register-worker"])
             [{| Type_ := "shell"; Payload := None; Decoded := None |}]
             (Scenario.exec Scenario.two_addresses)
             [Scenario.exec "register-worker"] []
             Scenario.two_addresses "0.0.0.0:7777" "0.0.0.0:7788"
             {| processes := []; channels := [0];
                forwardedTCPIPs := [Some (Scenario.forwarded 0 7777 40001);
                                    Some (Scenario.forwarded 1 7799 40002)] |}
             [Reply false] eq_refl eq_refl eq_refl eq_refl eq_refl).
    + vm_compute. reflexivity.
    + right. split; [vm_compute; reflexivity|].
      right. vm_compute. reflexivity.
Defined.

(** C8, as stated, fails: after a command that does not parse the
    session goes on, and the next [exec] on the same channel registers
    the worker. *)
Lemma session_survives_invalid_command :
  Parser.parseRequest "bogus" = inr "invalid command"
  /\ handleConn Scenario.gateway Parser.parseRequest Parser.expectedForwards []
       [Scenario.session [Scenario.exec "bogus"; Scenario.exec "register-worker"]]
     = [Accept 0;
        Fprintf 0 "invalid command: invalid command"; Reply false;
        Reply true; Start (Heartbeater Scenario.w2); ConnWait;
        CloseChannel 0;
        Signal (Heartbeater Scenario.w2); Wait (Heartbeater Scenario.w2);
        CloseConn].
Proof. split; vm_compute; reflexivity. Qed.

Lemma invalid_command_is_skipped_witness :
  handleRequests Scenario.gateway Parser.parseRequest Parser.expectedForwards
    (init []) 0 [Scenario.exec "bogus"; Scenario.exec "register-worker"]
  = let '(f, s', t) :=
      handleRequests Scenario.gateway Parser.parseRequest Parser.expectedForwards
        (init []) 0 [Scenario.exec "register-worker"] in
    (f, s', [Fprintf 0 ("invalid command: " +:+ "invalid command"); Reply false] ++ t).
Proof.
  apply (invalid_command_is_skipped Scenario.gateway Parser.parseRequest
           Parser.expectedForwards (init []) 0 (Scenario.exec "bogus")
           [Scenario.exec "register-worker"] "bogus" "invalid command").
  - reflexivity.
  - reflexivity.
  - vm_compute. reflexivity.
Defined.

(** Two tunnels declared under one bind address. *)
Lemma same_bind_address_registers_garden_only_witness :
  let first := Scenario.forwarded 0 7777 40001 in
  let second := Scenario.forwarded 1 7777 40002 in
  let s := init [Some first; Some second] in
  let w' := Scenario.rewritten "gateway.example:40002" "http://10.0.0.5:7788" in
  snd (collect 2 s ∅) = {[ "0.0.0.0:7777" := second ]}
  /\ size (snd (collect 2 s ∅)) = 1
  /\ forwardWorker Scenario.gateway Parser.expectedForwards s 0 (Some Scenario.w2)
       "0.0.0.0:7777" "0.0.0.0:7788"
     = (Continue,
        {| processes := [process first; process second; Heartbeater w'];
           channels := [];
           forwardedTCPIPs := [] |},
        [Start (Heartbeater w'); ConnWait]).
Proof.
  apply (same_bind_address_registers_garden_only Scenario.gateway
           Parser.expectedForwards
           (init [Some (Scenario.forwarded 0 7777 40001);
                  Some (Scenario.forwarded 1 7777 40002)])
           0 Scenario.w2 "0.0.0.0:7777" "0.0.0.0:7788"
           (Scenario.forwarded 0 7777 40001) (Scenario.forwarded 1 7777 40002) []).
  - vm_compute. reflexivity.
  - reflexivity.
  - reflexivity.
Defined.

(** C2: a worker opens a tunnel and then registers directly.  The
    dispatcher spawned for the tunnel is pushed on the queue, which the
    [register-worker] branch never reads: the handler records the
    heartbeater alone, and returns without having signalled or awaited
    the dispatcher.  The same happens to the second of two tunnels when
    the [forward-worker] command expects one. *)
Theorem unreceived_dispatcher_not_joined :
  (let (forwards, handler) :=
     Connection.serve Scenario.gateway
       [Scenario.forward "0.0.0.0" 0 40001]
       [Scenario.session [Scenario.exec "register-worker"]] in
   Forward.spawned forwards = [Dispatcher 0 "0.0.0.0" 40001]
   /\ handler
      = [Accept 0; Reply true; Start (Heartbeater Scenario.w2); ConnWait;
         CloseChannel 0;
         Signal (Heartbeater Scenario.w2); Wait (Heartbeater Scenario.w2);
         CloseConn]
   /\ ~ Connection.joined (Dispatcher 0 "0.0.0.0" 40001) handler)
  /\ (let (forwards, handler) :=
        Connection.serve Scenario.gateway
          [Scenario.forward "0.0.0.0" 7777 40001;
           Scenario.forward "0.0.0.0" 7788 40002]
          [Scenario.session [Scenario.exec "forward-worker"]] in
      Forward.spawned forwards
      = [Dispatcher 0 "0.0.0.0" 7777; Dispatcher 1 "0.0.0.0" 7788]
      /\ Connection.joined (Dispatcher 0 "0.0.0.0" 7777) handler
      /\ ~ Connection.joined (Dispatcher 1 "0.0.0.0" 7788) handler).
Proof.
  split.
  - vm_compute. split; [reflexivity|]. split; [reflexivity|].
    intros [H _]. absurd_member H.
  - vm_compute. split; [reflexivity|]. split.
    + split.
      * do 4 apply list_elem_of_further. apply list_elem_of_here.
      * do 6 apply list_elem_of_further. apply list_elem_of_here.
    + intros [H _]. absurd_member H.
Qed.

End ConnFacts.

(** ** The end-to-end scenarios of the specification *)

Module ScenarioFacts.

(** S3: two tunnels, both declared; both addresses are rewritten. *)
Example two_tunnel_forward :
  Conn.published
    (snd (Connection.serve Scenario.gateway
            [Scenario.forward "0.0.0.0" 7777 40001;
             Scenario.forward "0.0.0.0" 7788 40002]
            [Scenario.session [Scenario.exec Scenario.two_addresses]]))
  = [Scenario.rewritten "gateway.example:40001" "http://gateway.example:40002"].
Proof. vm_compute. reflexivity. Qed.

(** S4: of three [tcpip-forward] requests the third is replied false
    with no payload, and two listeners exist. *)
Example extra_forward :
  Forward.serve Forward.init
    [Scenario.forward "0.0.0.0" 7777 40001;
     Scenario.forward "0.0.0.0" 7788 40002;
     Scenario.forward "0.0.0.0" 7799 40003]
  = ({| Forward.forwardedThings := 3;
        Forward.deferred := [1; 0];
        Forward.opened := 2 |},
     [Forward.Listen 0;
      Forward.Spawn (Dispatcher 0 "0.0.0.0" 7777);
      Forward.Push (Scenario.forwarded 0 7777 40001);
      Forward.Reply true (Some {| BoundPort := 40001 |});
      Forward.Listen 1;
      Forward.Spawn (Dispatcher 1 "0.0.0.0" 7788);
      Forward.Push (Scenario.forwarded 1 7788 40002);
      Forward.Reply true (Some {| BoundPort := 40002 |});
      Forward.Reply false None]).
Proof. vm_compute. reflexivity. Qed.

(** A worker that declares two addresses and opens one tunnel is
    registered Garden-only on the tunnel it opened. *)
Example declared_two_delivered_one :
  Conn.published
    (snd (Connection.serve Scenario.gateway
            [Scenario.forward "0.0.0.0" 7777 40001]
            [Scenario.session [Scenario.exec Scenario.two_addresses]]))
  = [Scenario.rewritten "gateway.example:40001" "http://10.0.0.5:7788"].
Proof. vm_compute. reflexivity. Qed.

End ScenarioFacts.

(** ** More on the global-request consumer *)

Module ForwardInvariants.

Import Forward.

(** The three shapes an iteration can take: a bare refusal; a listener
    opened and then a refusal; a listener, a dispatcher, a record on the
    queue and an acceptance. *)
Lemma step_cases s r :
  let (s', t) := handleForwardRequest s r in
  (t = [Reply false None]
   /\ deferred s' = deferred s /\ opened s' = opened s)
  \/ (t = [Listen (opened s); Reply false None]
      /\ deferred s' = opened s :: deferred s /\ opened s' = S (opened s))
  \/ (exists req port,
        Type_ r = "tcpip-forward"
        /\ Payload r = Some req
        /\ Listen_ r = Listening port
        /\ let p := Dispatcher (opened s) (BindIP req)
                      (if decide (BindPort req = 0%N) then port else BindPort req) in
           t = [Listen (opened s); Spawn p;
                Push {| bindAddr := host_port (BindIP req) (BindPort req);
                        process := p; boundPort := port |};
                Reply true (Some {| BoundPort := port |})]
        /\ deferred s' = opened s :: deferred s /\ opened s' = S (opened s)).
Proof.
  unfold handleForwardRequest.
  destruct (decide (Type_ r = "tcpip-forward")) as [Ht|Ht];
    [|left; repeat split].
  case_decide; [left; repeat split|].
  destruct (Payload r) as [req|]; [|left; repeat split].
  destruct (Listen_ r) as [| | |port];
    [left; repeat split | right; left; repeat split
     | right; left; repeat split |].
  right. right. exists req, port. cbn. repeat split. assumption.
Qed.

Lemma replies_app t t' :
  Observe.replies (t ++ t') = Observe.replies t ++ Observe.replies t'.
Proof.
  induction t as [|e t IH]; [reflexivity|].
  destruct e; simpl; now rewrite ?IH.
Qed.

Lemma listened_app t t' :
  Observe.listened (t ++ t') = Observe.listened t ++ Observe.listened t'.
Proof.
  induction t as [|e t IH]; [reflexivity|].
  destruct e; simpl; now rewrite ?IH.
Qed.

Lemma closed_app t t' :
  Observe.closed (t ++ t') = Observe.closed t ++ Observe.closed t'.
Proof.
  induction t as [|e t IH]; [reflexivity|].
  destruct e; simpl; now rewrite ?IH.
Qed.

Lemma spawned_app t t' : spawned (t ++ t') = spawned t ++ spawned t'.
Proof.
  induction t as [|e t IH]; [reflexivity|].
  destruct e; simpl; now rewrite ?IH.
Qed.

(** Closing the listeners replies to nobody, opens, spawns and queues
    nothing. *)
Lemma close_listeners_silent ls :
  Observe.replies (map CloseListener ls) = []
  /\ Observe.listened (map CloseListener ls) = []
  /\ spawned (map CloseListener ls) = []
  /\ pushed (map CloseListener ls) = []
  /\ accepted (map CloseListener ls) = 0
  /\ Observe.closed (map CloseListener ls) = ls.
Proof.
  induction ls as [|l ls (H1 & H2 & H3 & H4 & H5 & H6)]; [repeat split|].
  simpl. repeat split; try assumption. now rewrite H6.
Qed.

Lemma replies_serve reqs : forall s,
  length (Observe.replies (snd (serve s reqs))) = length reqs.
Proof.
  induction reqs as [|r reqs IH]; intros s; [reflexivity|].
  simpl. pose proof (step_cases s r) as Hstep.
  destruct (handleForwardRequest s r) as [s1 t1].
  specialize (IH s1). destruct (serve s1 reqs) as [s2 t2]. simpl in IH |- *.
  rewrite replies_app, length_app, IH.
  destruct Hstep as [(-> & _)|[(-> & _)|(req & port & _ & _ & _ & -> & _)]];
    reflexivity.
Qed.

(** X1: every global request is replied to exactly once, whatever its
    type and whatever becomes of it. *)
Theorem every_request_replied_once reqs :
  length (Observe.replies (handleForwardRequests reqs)) = length reqs.
Proof.
  unfold handleForwardRequests.
  pose proof (replies_serve reqs init) as H.
  destruct (serve init reqs) as [s t]. simpl in H.
  rewrite replies_app, length_app, H.
  destruct (close_listeners_silent (deferred s)) as (-> & _). simpl. lia.
Qed.

(** Dispatchers, records and acceptances go together. *)
Lemma spawned_serve reqs : forall s,
  let t := snd (serve s reqs) in
  map process (pushed t) = spawned t
  /\ length (spawned t) = accepted t.
Proof.
  induction reqs as [|r reqs IH]; intros s; [split; reflexivity|].
  simpl. pose proof (step_cases s r) as Hstep.
  destruct (handleForwardRequest s r) as [s1 t1].
  specialize (IH s1). destruct (serve s1 reqs) as [s2 t2].
  simpl in IH |- *. destruct IH as [IH1 IH2].
  rewrite ForwardFacts.pushed_app, spawned_app, ForwardFacts.accepted_app,
    map_app, length_app, IH1, IH2.
  destruct Hstep as [(-> & _)|[(-> & _)|(req & port & _ & _ & _ & -> & _)]];
    split; reflexivity.
Qed.

(** X2: a connection has at most two accepted [tcpip-forward]
    requests, so at most two records are ever put on the queue of
    capacity two and the consumer never waits on it.  (The request count
    stays within a Go [int].) *)
Theorem queue_never_full reqs :
  (Z.of_nat (length reqs) < int_max)%Z ->
  accepted (handleForwardRequests reqs) <= 2
  /\ length (pushed (handleForwardRequests reqs)) <= 2.
Proof.
  intros Hlen. unfold handleForwardRequests.
  pose proof (ForwardFacts.forwardRequests_le reqs) as Hn.
  pose proof (ForwardFacts.at_most_two_accepted reqs init) as Hacc.
  pose proof (spawned_serve reqs init) as [Hp Hs].
  destruct (serve init reqs) as [s t]. simpl in Hacc, Hp, Hs.
  rewrite ForwardFacts.accepted_app, ForwardFacts.pushed_app, length_app.
  destruct (close_listeners_silent (deferred s)) as (_ & _ & _ & -> & -> & _).
  assert (length (pushed t) = accepted t) as ->
    by (rewrite <- Hs, <- Hp; now rewrite length_map).
  simpl. lia.
Qed.

Lemma queue_never_full_witness :
  let reqs := [Scenario.forward "0.0.0.0" 7777 40001;
               Scenario.malformed;
               Scenario.forward "0.0.0.0" 7788 40002;
               Scenario.forward "0.0.0.0" 7799 40003] in
  accepted (handleForwardRequests reqs) <= 2
  /\ length (pushed (handleForwardRequests reqs)) <= 2.
Proof.
  apply (queue_never_full
           [Scenario.forward "0.0.0.0" 7777 40001;
            Scenario.malformed;
            Scenario.forward "0.0.0.0" 7788 40002;
            Scenario.forward "0.0.0.0" 7799 40003]).
  vm_compute. reflexivity.
Defined.

(** X3: every accepted request spawns exactly one dispatcher, and the
    records on the queue carry those dispatchers, in the order they were
    spawned; nothing else spawns one. *)
Theorem one_dispatcher_per_accepted_request reqs :
  let t := handleForwardRequests reqs in
  map process (pushed t) = spawned t
  /\ length (spawned t) = accepted t.
Proof.
  unfold handleForwardRequests.
  pose proof (spawned_serve reqs init) as [Hp Hs].
  destruct (serve init reqs) as [s t]. simpl in Hp, Hs |- *.
  rewrite ForwardFacts.pushed_app, spawned_app, ForwardFacts.accepted_app.
  destruct (close_listeners_silent (deferred s)) as (_ & _ & -> & -> & -> & _).
  rewrite !app_nil_r. split; [assumption | lia].
Qed.

(** The listeners opened are numbered from where the state stands, and
    each is deferred for closing, latest first; none is closed while
    requests are served. *)
Lemma listeners_serve reqs : forall s,
  let (s', t) := serve s reqs in
  Observe.listened t = seq (opened s) (length (Observe.listened t))
  /\ deferred s' = rev (Observe.listened t) ++ deferred s
  /\ opened s' = opened s + length (Observe.listened t)
  /\ Observe.closed t = [].
Proof.
  induction reqs as [|r reqs IH]; intros s.
  - simpl. repeat split. lia.
  - simpl. pose proof (step_cases s r) as Hstep.
    destruct (handleForwardRequest s r) as [s1 t1].
    specialize (IH s1). destruct (serve s1 reqs) as [s2 t2].
    destruct IH as (IH1 & IH2 & IH3 & IH4).
    rewrite listened_app, closed_app, IH4.
    destruct Hstep as [(-> & Hd & Ho)|[(-> & Hd & Ho)
                      |(req & port & _ & _ & _ & -> & Hd & Ho)]];
      rewrite Hd in IH2; rewrite Ho in IH1, IH3; simpl.
    + repeat split; assumption.
    + split; [f_equal; exact IH1|].
      split; [rewrite IH2; now rewrite <- app_assoc|].
      split; [lia | reflexivity].
    + split; [f_equal; exact IH1|].
      split; [rewrite IH2; now rewrite <- app_assoc|].
      split; [lia | reflexivity].
Qed.

(** X4: when [handleForwardRequests] returns, every listener it opened
    is closed, once, the latest first; this includes the listeners
    opened for requests that were refused after listening.  Listeners
    are distinct. *)
Theorem listeners_closed_on_return reqs :
  let t := handleForwardRequests reqs in
  Observe.closed t = rev (Observe.listened t)
  /\ Observe.listened t = seq 0 (length (Observe.listened t)).
Proof.
  unfold handleForwardRequests.
  pose proof (listeners_serve reqs init) as H.
  destruct (serve init reqs) as [s t].
  destruct H as (H1 & H2 & _ & H4). simpl in H1, H2 |- *.
  rewrite closed_app, listened_app, H4.
  destruct (close_listeners_silent (deferred s)) as (_ & -> & _ & _ & _ & ->).
  rewrite !app_nil_r in *. simpl. split; [assumption|assumption].
Qed.

(** X5: global requests of any other type are refused and change
    nothing for the forwards: with or without them, the same listeners
    are opened, the same dispatchers spawned, the same records queued,
    and the consumer ends in the same state. *)
Theorem other_requests_are_inert reqs : forall s,
  let (s1, t1) := serve s reqs in
  let (s2, t2) := serve s (List.filter is_forward reqs) in
  s1 = s2
  /\ pushed t1 = pushed t2
  /\ spawned t1 = spawned t2
  /\ Observe.listened t1 = Observe.listened t2.
Proof.
  induction reqs as [|r reqs IH]; intros s; [repeat split|].
  simpl. destruct (is_forward r) eqn:Hf.
  - simpl. destruct (handleForwardRequest s r) as [s' t'].
    specialize (IH s').
    destruct (serve s' reqs) as [s1 t1].
    destruct (serve s' (List.filter is_forward reqs)) as [s2 t2].
    destruct IH as (-> & Hp & Hs & Hl).
    rewrite !ForwardFacts.pushed_app, !spawned_app, !listened_app, Hp, Hs, Hl.
    repeat split.
  - unfold is_forward in Hf. apply bool_decide_eq_false in Hf.
    unfold handleForwardRequest. rewrite decide_False by assumption.
    specialize (IH s).
    destruct (serve s reqs) as [s1 t1].
    destruct (serve s (List.filter is_forward reqs)) as [s2 t2].
    exact IH.
Qed.

(** Where a record on the queue comes from. *)
Lemma pushed_origin reqs : forall s f,
  f ∈ pushed (snd (serve s reqs)) ->
  exists r req l,
    r ∈ reqs
    /\ Type_ r = "tcpip-forward"
    /\ Payload r = Some req
    /\ Listen_ r = Listening (boundPort f)
    /\ bindAddr f = host_port (BindIP req) (BindPort req)
    /\ process f
       = Dispatcher l (BindIP req)
           (if decide (BindPort req = 0%N) then boundPort f else BindPort req).
Proof.
  induction reqs as [|r reqs IH]; intros s f H.
  - simpl in H. apply elem_of_nil in H. contradiction.
  - simpl in H. pose proof (step_cases s r) as Hstep.
    destruct (handleForwardRequest s r) as [s1 t1].
    specialize (IH s1 f). destruct (serve s1 reqs) as [s2 t2]. simpl in IH, H.
    rewrite ForwardFacts.pushed_app in H. apply elem_of_app in H as [H|H].
    + destruct Hstep as [(-> & _)|[(-> & _)|(req & port & Ht & Hp & Hl & -> & _)]];
        simpl in H; absurd_member H.
      subst f. exists r, req, (opened s). simpl.
      split; [apply list_elem_of_here|]. auto.
    + destruct (IH H) as (r' & req & l & Hin & Hrest).
      exists r', req, l. split; [now apply list_elem_of_further | assumption].
Qed.

(** X6: a record on the queue comes from a well-formed
    [tcpip-forward] request: its key is the bind address that request
    declared, [bindIP:bindPort]; its bound port is the port the kernel
    gave the listener; its dispatcher forwards for the declared bind IP
    and for the declared port, or for the kernel's when the declared
    port is zero. *)
Theorem queued_record_origin reqs f :
  f ∈ pushed (handleForwardRequests reqs) ->
  exists r req l,
    r ∈ reqs
    /\ Type_ r = "tcpip-forward"
    /\ Payload r = Some req
    /\ Listen_ r = Listening (boundPort f)
    /\ bindAddr f = host_port (BindIP req) (BindPort req)
    /\ process f
       = Dispatcher l (BindIP req)
           (if decide (BindPort req = 0%N) then boundPort f else BindPort req).
Proof.
  unfold handleForwardRequests. intros H.
  pose proof (pushed_origin reqs init f) as Ho.
  destruct (serve init reqs) as [s t]. simpl in Ho.
  rewrite ForwardFacts.pushed_app in H.
  destruct (close_listeners_silent (deferred s)) as (_ & _ & _ & Hp & _).
  rewrite Hp, app_nil_r in H. auto.
Qed.

Lemma queued_record_origin_witness :
  exists r req l,
    r ∈ [Scenario.forward "0.0.0.0" 0 40001]
    /\ Type_ r = "tcpip-forward"
    /\ Payload r = Some req
    /\ Listen_ r = Listening (boundPort (Scenario.forwarded 0 0 40001))
    /\ bindAddr (Scenario.forwarded 0 0 40001) = host_port (BindIP req) (BindPort req)
    /\ process (Scenario.forwarded 0 0 40001)
       = Dispatcher l (BindIP req)
           (if decide (BindPort req = 0%N)
            then boundPort (Scenario.forwarded 0 0 40001) else BindPort req).
Proof.
  apply (queued_record_origin [Scenario.forward "0.0.0.0" 0 40001]
           (Scenario.forwarded 0 0 40001)).
  vm_compute. apply list_elem_of_here.
Defined.

(** X7: as no listening socket has port zero, no record on the queue
    has bound port zero and no dispatcher forwards for port zero, even
    when the client asked for it. *)
Theorem forward_ports_not_zero reqs :
  (forall r, r ∈ reqs -> Listen_ r <> Listening 0) ->
  forall f, f ∈ pushed (handleForwardRequests reqs) ->
    boundPort f <> 0%N
    /\ forall l ip port, process f = Dispatcher l ip port -> port <> 0%N.
Proof.
  intros Hports f H. unfold handleForwardRequests in H.
  pose proof (pushed_origin reqs init f) as Ho.
  destruct (serve init reqs) as [s t]. simpl in Ho.
  rewrite ForwardFacts.pushed_app in H.
  destruct (close_listeners_silent (deferred s)) as (_ & _ & _ & Hp & _).
  rewrite Hp, app_nil_r in H.
  destruct (Ho H) as (r & req & l & Hin & _ & _ & Hl & _ & Hproc).
  assert (boundPort f <> 0%N) as Hb
    by (intros H0; apply (Hports r Hin); now rewrite Hl, H0).
  split; [assumption|].
  intros l' ip port Hd. rewrite Hproc in Hd. injection Hd as _ _ <-.
  case_decide; assumption.
Qed.

Lemma forward_ports_not_zero_witness :
  boundPort (Scenario.forwarded 0 0 40001) <> 0%N
  /\ forall l ip port,
       process (Scenario.forwarded 0 0 40001) = Dispatcher l ip port -> port <> 0%N.
Proof.
  apply (forward_ports_not_zero [Scenario.forward "0.0.0.0" 0 40001]).
  - intros r H. apply list_elem_of_singleton in H. subst r. discriminate.
  - vm_compute. apply list_elem_of_here.
Defined.

End ForwardInvariants.

(** ** More on the session handler *)

Module ConnInvariants.

Import Conn.

Lemma started_app t t' :
  Observe.started (t ++ t') = Observe.started t ++ Observe.started t'.
Proof.
  induction t as [|e t IH]; [reflexivity|].
  destruct e; simpl; now rewrite ?IH.
Qed.

Lemma accepted_channels_app t t' :
  Observe.accepted_channels (t ++ t')
  = Observe.accepted_channels t ++ Observe.accepted_channels t'.
Proof.
  induction t as [|e t IH]; [reflexivity|].
  destruct e; simpl; now rewrite ?IH.
Qed.

Lemma closed_channels_app t t' :
  Observe.closed_channels (t ++ t')
  = Observe.closed_channels t ++ Observe.closed_channels t'.
Proof.
  induction t as [|e t IH]; [reflexivity|].
  destruct e; simpl; now rewrite ?IH.
Qed.

Lemma answered_app t t' :
  Observe.answered (t ++ t') = Observe.answered t ++ Observe.answered t'.
Proof.
  induction t as [|e t IH]; [reflexivity|].
  destruct e; simpl; now rewrite ?IH.
Qed.

(** *** Collecting the forwards *)

Lemma received_le n : forall queue, length (Observe.received n queue) <= n.
Proof.
  unfold Observe.received.
  induction n as [|n IH]; intros [|[f|] queue]; cbn; try lia;
    specialize (IH queue); lia.
Qed.

(** [collect] in closed form. *)
Lemma collect_spec n : forall s forwards,
  collect n s forwards
  = ({| processes :=
          processes s ++ map process (Observe.received n (forwardedTCPIPs s));
        channels := channels s;
        forwardedTCPIPs := drop n (forwardedTCPIPs s) |},
     foldl Observe.keep forwards (Observe.received n (forwardedTCPIPs s))).
Proof.
  unfold Observe.received.
  induction n as [|n IH]; intros s forwards.
  - destruct s. simpl. now rewrite app_nil_r.
  - simpl. destruct (forwardedTCPIPs s) as [|[f|] queue] eqn:Hq.
    + rewrite IH, Hq, take_nil, drop_nil. reflexivity.
    + rewrite IH. simpl. now rewrite <- app_assoc.
    + rewrite IH. reflexivity.
Qed.

Lemma keep_all_size fs : forall forwards : gmap string forwardedTCPIP,
  size (foldl Observe.keep forwards fs) <= size forwards + length fs.
Proof.
  induction fs as [|f fs IH]; intros forwards; simpl; [lia|].
  specialize (IH (Observe.keep forwards f)).
  assert (size (Observe.keep forwards f) <= S (size forwards)).
  { unfold Observe.keep. rewrite map_size_insert.
    destruct (forwards !! bindAddr f); simpl; lia. }
  lia.
Qed.

Lemma keep_all_lookup fs : forall (forwards : gmap string forwardedTCPIP) k f,
  foldl Observe.keep forwards fs !! k = Some f ->
  forwards !! k = Some f \/ (f ∈ fs /\ bindAddr f = k).
Proof.
  induction fs as [|f' fs IH]; intros forwards k f H; simpl in H; [now left|].
  apply IH in H as [H|[H1 H2]].
  - unfold Observe.keep in H. apply lookup_insert_Some in H as [[<- <-]|[_ H]].
    + right. split; [apply list_elem_of_here | reflexivity].
    + now left.
  - right. split; [now apply list_elem_of_further | assumption].
Qed.

Lemma keep_all_keys fs : forall (forwards : gmap string forwardedTCPIP) k,
  is_Some (forwards !! k) \/ (exists f, f ∈ fs /\ bindAddr f = k) ->
  is_Some (foldl Observe.keep forwards fs !! k).
Proof.
  induction fs as [|f' fs IH]; intros forwards k H; simpl.
  - destruct H as [H|(f & H & _)]; [assumption|].
    apply elem_of_nil in H. contradiction.
  - apply IH. destruct H as [H|(f & H & Hk)].
    + left. unfold Observe.keep. apply lookup_insert_is_Some'. now right.
    + apply elem_of_cons in H as [->|H].
      * left. unfold Observe.keep. rewrite Hk. apply lookup_insert_is_Some'. now left.
      * right. exists f. auto.
Qed.

(** X8: collecting [n] forwards takes exactly the first [n] outcomes
    of the queue, received or timed out, and records the dispatcher of
    every record received, in order, also of a record that a later one
    replaces in the map. *)
Theorem collect_consumes n s forwards :
  let s' := fst (collect n s forwards) in
  processes s'
  = processes s ++ map process (Observe.received n (forwardedTCPIPs s))
  /\ forwardedTCPIPs s' = drop n (forwardedTCPIPs s)
  /\ channels s' = channels s.
Proof. intros s'. subst s'. rewrite collect_spec. repeat split. Qed.

(** X9: the map of forwards has at most as many entries as records
    were received, hence at most [n]; every entry is a received record
    under its own bind address, and every received bind address is a key
    of the map. *)
Theorem collect_map n s :
  let forwards := snd (collect n s ∅) in
  let got := Observe.received n (forwardedTCPIPs s) in
  size forwards <= length got <= n
  /\ (forall k f, forwards !! k = Some f -> f ∈ got /\ bindAddr f = k)
  /\ (forall f, f ∈ got -> is_Some (forwards !! bindAddr f)).
Proof.
  intros forwards got. subst forwards got. rewrite collect_spec. cbn [snd].
  split; [split|split].
  - pose proof (keep_all_size (Observe.received n (forwardedTCPIPs s)) ∅) as H.
    rewrite map_size_empty in H. lia.
  - apply received_le.
  - intros k f H. apply keep_all_lookup in H as [H|H]; [|assumption].
    now rewrite lookup_empty in H.
  - intros f H. apply keep_all_keys. right. exists f. auto.
Qed.

(** *** What the handler keeps track of *)

(** Between two states of a handler, with the trace in between: [k]
    outcomes were taken from the queue, and the recorded processes are
    those recorded before, the dispatchers of the records received and
    the processes started. *)
Local Abbreviation tracked s s' t :=
  (exists k,
     forwardedTCPIPs s' = drop k (forwardedTCPIPs s)
     /\ forall p,
          p ∈ processes s'
          <-> p ∈ processes s
              \/ p ∈ map process (Observe.received k (forwardedTCPIPs s))
              \/ p ∈ Observe.started t).

Lemma tracked_refl s : tracked s s [].
Proof.
  exists 0. split; [reflexivity|]. intros p. cbn.
  split; [now left | intros [H|[H|H]]; [assumption | |];
                     apply elem_of_nil in H; contradiction].
Qed.

Lemma received_add k1 k2 queue :
  Observe.received (k1 + k2) queue
  = Observe.received k1 queue ++ Observe.received k2 (drop k1 queue).
Proof. unfold Observe.received. now rewrite <- take_take_drop, omap_app. Qed.

Lemma tracked_trans s s1 s2 t1 t2 :
  tracked s s1 t1 -> tracked s1 s2 t2 -> tracked s s2 (t1 ++ t2).
Proof.
  intros (k1 & Hq1 & Hp1) (k2 & Hq2 & Hp2). exists (k1 + k2). split.
  - now rewrite Hq2, Hq1, drop_drop.
  - intros p. rewrite Hp2, Hp1, Hq1, received_add, map_app, started_app,
      !elem_of_app. tauto.
Qed.

Section Handler.

Variable forwardHost : string.
Variable parseRequest : string -> workerRequest + string.
Variable expectedForwards : string -> string -> nat.

Local Abbreviation continuouslyRegisterForwardedWorker :=
  (continuouslyRegisterForwardedWorker forwardHost).
Local Abbreviation register_forwards := (register_forwards forwardHost).
Local Abbreviation forwardWorker := (forwardWorker forwardHost expectedForwards).
Local Abbreviation handleRequest :=
  (handleRequest forwardHost parseRequest expectedForwards).
Local Abbreviation handleRequests :=
  (handleRequests forwardHost parseRequest expectedForwards).
Local Abbreviation handleChannel :=
  (handleChannel forwardHost parseRequest expectedForwards).
Local Abbreviation handleChannels :=
  (handleChannels forwardHost parseRequest expectedForwards).
Local Abbreviation handleConnFrom :=
  (handleConnFrom forwardHost parseRequest expectedForwards).
Local Abbreviation handleConn :=
  (handleConn forwardHost parseRequest expectedForwards).

(** A registration records the process it starts, if it starts one, and
    nothing else changes. *)
Lemma registered_inv s started :
  let '(f, s', t) := then_wait (registered s started) in
  processes s' = processes s ++ Observe.started t
  /\ channels s' = channels s
  /\ forwardedTCPIPs s' = forwardedTCPIPs s
  /\ Observe.answered t = []
  /\ Observe.accepted_channels t = []
  /\ Observe.closed_channels t = []
  /\ (started = None -> Observe.started t = []).
Proof.
  destruct started as [p|]; cbn.
  - repeat split. discriminate.
  - rewrite app_nil_r. repeat split.
Qed.

Lemma register_forwards_inv s channel decoded gardenAddr baggageclaimAddr forwards :
  let '(f, s', t) :=
    register_forwards s channel decoded gardenAddr baggageclaimAddr forwards in
  processes s' = processes s ++ Observe.started t
  /\ channels s' = channels s
  /\ forwardedTCPIPs s' = forwardedTCPIPs s
  /\ Observe.answered t = []
  /\ Observe.accepted_channels t = []
  /\ Observe.closed_channels t = []
  /\ (decoded = None -> Observe.started t = []).
Proof.
  unfold Conn.register_forwards.
  assert (forall s, processes s = processes s ++ Observe.started [] /\ True)
    as Hnil by (intros s0; cbn; now rewrite app_nil_r).
  destruct (size forwards) as [|[|[|n]]].
  - cbn. rewrite app_nil_r. repeat split.
  - destruct (map_to_list forwards) as [|[k gardenForward] l].
    + cbn. rewrite app_nil_r. repeat split.
    + pose proof (registered_inv s
                    (continuouslyRegisterForwardedWorker decoded
                       (boundPort gardenForward) 0)) as H.
      destruct (then_wait _) as [[f s'] t].
      destruct H as (H1 & H2 & H3 & H4 & H5 & H6 & H7).
      repeat split; try assumption. intros ->. now apply H7.
  - destruct (forwards !! gardenAddr) as [gardenForward|];
      [|cbn; rewrite app_nil_r; repeat split].
    destruct (forwards !! baggageclaimAddr) as [baggageclaimForward|];
      [|cbn; rewrite app_nil_r; repeat split].
    pose proof (registered_inv s
                  (continuouslyRegisterForwardedWorker decoded
                     (boundPort gardenForward) (boundPort baggageclaimForward))) as H.
    destruct (then_wait _) as [[f s'] t].
    destruct H as (H1 & H2 & H3 & H4 & H5 & H6 & H7).
    repeat split; try assumption. intros ->. now apply H7.
  - cbn. rewrite app_nil_r. repeat split.
Qed.

(** One request: what it takes from the queue and records, and what it
    leaves alone. *)
Lemma handleRequest_inv s channel req :
  let '(f, s', t) := handleRequest s channel req in
  tracked s s' t
  /\ channels s' = channels s
  /\ Observe.accepted_channels t = []
  /\ Observe.closed_channels t = []
  /\ (Decoded req = None -> Observe.started t = []).
Proof.
  unfold Conn.handleRequest.
  case_decide; [split; [apply tracked_refl | repeat split]|].
  destruct (Payload req) as [command|];
    [|split; [apply tracked_refl | repeat split]].
  destruct (parseRequest command) as [[|gardenAddr baggageclaimAddr]|err];
    [| |split; [apply tracked_refl | repeat split]].
  - unfold registerWorker, continuouslyRegisterWorkerDirectly.
    destruct (Decoded req) as [worker|]; cbn.
    + split; [|repeat split; discriminate].
      exists 0. split; [reflexivity|]. intros p. cbn.
      rewrite elem_of_app, list_elem_of_singleton, elem_of_nil. tauto.
    + split; [apply tracked_refl | repeat split].
  - unfold Conn.forwardWorker. rewrite collect_spec.
    pose proof (register_forwards_inv
                  {| processes :=
                       processes s
                       ++ map process
                            (Observe.received
                               (expectedForwards gardenAddr baggageclaimAddr)
                               (forwardedTCPIPs s));
                     channels := channels s;
                     forwardedTCPIPs :=
                       drop (expectedForwards gardenAddr baggageclaimAddr)
                         (forwardedTCPIPs s) |}
                  channel (Decoded req) gardenAddr baggageclaimAddr
                  (foldl Observe.keep ∅
                     (Observe.received
                        (expectedForwards gardenAddr baggageclaimAddr)
                        (forwardedTCPIPs s)))) as Hreg.
    destruct (register_forwards _ _ _ _ _ _) as [[f s'] t].
    destruct Hreg as (H1 & H2 & H3 & _ & H5 & H6 & H7). cbn in H1, H2, H3.
    split; [|repeat split; assumption].
    exists (expectedForwards gardenAddr baggageclaimAddr).
    split; [assumption|]. intros p. rewrite H1, !elem_of_app. tauto.
Qed.

Lemma handleRequests_inv requests : forall s channel,
  let '(f, s', t) := handleRequests s channel requests in
  tracked s s' t
  /\ channels s' = channels s
  /\ Observe.accepted_channels t = []
  /\ Observe.closed_channels t = [].
Proof.
  induction requests as [|req requests IH]; intros s channel.
  - cbn. split; [apply tracked_refl | repeat split].
  - cbn [Conn.handleRequests].
    pose proof (handleRequest_inv s channel req) as H.
    destruct (handleRequest s channel req) as [[[] s1] t1];
      destruct H as (H1 & H2 & H3 & H4 & _).
    + specialize (IH s1 channel).
      destruct (handleRequests s1 channel requests) as [[f s2] t2].
      destruct IH as (I1 & I2 & I3 & I4).
      split; [now apply (tracked_trans s s1 s2)|].
      rewrite accepted_channels_app, closed_channels_app, H3, H4, I3, I4.
      repeat split. congruence.
    + repeat split; assumption.
Qed.

(** The channels: each accepted channel takes the next number and is
    deferred for closing, latest first; none is closed while the handler
    serves. *)
Lemma handleChannels_inv chans : forall s,
  let (s', t) := handleChannels s chans in
  tracked s s' t
  /\ channels s' = rev (Observe.accepted_channels t) ++ channels s
  /\ Observe.accepted_channels t
     = seq (length (channels s)) (length (Observe.accepted_channels t))
  /\ Observe.closed_channels t = [].
Proof.
  induction chans as [|newChannel chans IH]; intros s.
  - cbn. split; [apply tracked_refl | repeat split].
  - cbn [Conn.handleChannels]. unfold Conn.handleChannel.
    case_decide.
    + specialize (IH s). destruct (handleChannels s chans) as [s' t].
      destruct IH as (I1 & I2 & I3 & I4).
      split; [exact (tracked_trans s s s' [Reject (ChannelType newChannel)] t
                      (tracked_refl s) I1)|].
      cbn. repeat split; assumption.
    + destruct (Accepted newChannel) as [requests|];
        [|cbn; split; [apply tracked_refl | repeat split]].
      pose proof (handleRequests_inv requests
                    {| processes := processes s;
                       channels := length (channels s) :: channels s;
                       forwardedTCPIPs := forwardedTCPIPs s |}
                    (length (channels s))) as Hreq.
      destruct (handleRequests _ _ requests) as [[f s1] t1].
      destruct Hreq as (H1 & H2 & H3 & H4). cbn in H2.
      assert (tracked s s1 (Accept (length (channels s)) :: t1)) as Htr.
      { destruct H1 as (k & Hq & Hp). exists k. split; [exact Hq|].
        intros p. rewrite Hp. cbn. reflexivity. }
      destruct f.
      * specialize (IH s1). destruct (handleChannels s1 chans) as [s2 t2].
        destruct IH as (I1 & I2 & I3 & I4).
        split; [exact (tracked_trans s s1 s2 (Accept (length (channels s)) :: t1) t2
                        Htr I1)|].
        rewrite H2 in I2, I3. cbn [length] in I3.
        cbn. rewrite accepted_channels_app, closed_channels_app, H3, H4, I4.
        cbn. split; [rewrite I2; now rewrite <- app_assoc|].
        split; [f_equal; exact I3 | reflexivity].
      * split; [exact Htr|]. cbn. rewrite H3, H4, H2. repeat split.
Qed.

Lemma unwind_silent s :
  Observe.started (unwind s) = []
  /\ Observe.accepted_channels (unwind s) = []
  /\ Observe.closed_channels (unwind s) = channels s.
Proof.
  unfold unwind, cleanup.
  rewrite !started_app, !accepted_channels_app, !closed_channels_app.
  assert (forall ps,
             Observe.started (map Signal ps) = []
             /\ Observe.started (map Wait ps) = []
             /\ Observe.accepted_channels (map Signal ps) = []
             /\ Observe.accepted_channels (map Wait ps) = []
             /\ Observe.closed_channels (map Signal ps) = []
             /\ Observe.closed_channels (map Wait ps) = []) as Hps
    by (induction ps as [|p ps IH]; cbn; [repeat split | exact IH]).
  assert (forall cs,
             Observe.started (map CloseChannel cs) = []
             /\ Observe.accepted_channels (map CloseChannel cs) = []
             /\ Observe.closed_channels (map CloseChannel cs) = cs) as Hcs.
  { induction cs as [|c cs (I1 & I2 & I3)]; cbn; [repeat split|].
    rewrite I3. repeat split; assumption. }
  destruct (Hps (processes s)) as (-> & -> & -> & -> & -> & ->).
  destruct (Hcs (channels s)) as (-> & -> & ->).
  cbn. rewrite app_nil_r. repeat split.
Qed.

(** X10: every process the handler starts is signalled and waited on
    before the handler returns, on whichever path it returns. *)
Theorem started_processes_joined s chans p :
  p ∈ Observe.started (handleConnFrom s chans) ->
  Connection.joined p (handleConnFrom s chans).
Proof.
  intros H.
  apply (ConnFacts.recorded_processes_joined forwardHost parseRequest
           expectedForwards).
  unfold Conn.handleConnFrom in H.
  pose proof (handleChannels_inv chans s) as Hinv.
  destruct (handleChannels s chans) as [s' t]. cbn.
  destruct Hinv as ((k & _ & Hp) & _).
  rewrite started_app in H.
  destruct (unwind_silent s') as (Hu & _). rewrite Hu, app_nil_r in H.
  apply Hp. right. right. exact H.
Qed.

(** X11: the handler takes the outcomes of the queue in order, and the
    dispatcher of every record it received is signalled and waited on
    before it returns. *)
Theorem received_dispatchers_joined queue chans :
  exists k,
    forwardedTCPIPs (fst (handleChannels (init queue) chans)) = drop k queue
    /\ forall f,
         f ∈ Observe.received k queue ->
         Connection.joined (process f) (handleConn queue chans).
Proof.
  pose proof (handleChannels_inv chans (init queue)) as Hinv.
  pose proof (ConnFacts.recorded_processes_joined forwardHost parseRequest
                expectedForwards (init queue) chans) as Hjoin.
  destruct (handleChannels (init queue) chans) as [s' t] eqn:Hrun.
  destruct Hinv as ((k & Hq & Hp) & _). cbn in Hq, Hp, Hjoin.
  exists k. split; [exact Hq|].
  intros f Hf. apply Hjoin. apply Hp. right. left.
  now apply list_elem_of_fmap_2.
Qed.

(** X12: every session channel the handler accepted is closed when it
    returns, once, the latest first; accepted channels are distinct. *)
Theorem channels_closed_on_return queue chans :
  let t := handleConn queue chans in
  Observe.closed_channels t = rev (Observe.accepted_channels t)
  /\ Observe.accepted_channels t
     = seq 0 (length (Observe.accepted_channels t)).
Proof.
  unfold Conn.handleConn, Conn.handleConnFrom.
  pose proof (handleChannels_inv chans (init queue)) as Hinv.
  destruct (handleChannels (init queue) chans) as [s' t].
  destruct Hinv as (_ & H2 & H3 & H4). cbn in H2, H3 |- *.
  rewrite closed_channels_app, accepted_channels_app, H4.
  destruct (unwind_silent s') as (_ & -> & ->).
  rewrite !app_nil_r in *. split; assumption.
Qed.

(** X13: channels of any type but [session] are rejected and nothing
    else happens: a connection that opens no session channel starts no
    process, and its handler only closes the connection when the
    channels run out. *)
Theorem other_channels_rejected queue chans :
  Forall (fun newChannel => ChannelType newChannel <> "session") chans ->
  handleConn queue chans
  = map (fun newChannel => Reject (ChannelType newChannel)) chans ++ [CloseConn].
Proof.
  intros Hall. unfold Conn.handleConn, Conn.handleConnFrom.
  assert (forall s,
             handleChannels s chans
             = (s, map (fun newChannel => Reject (ChannelType newChannel)) chans))
    as ->.
  { intros s. induction Hall as [|newChannel chans Hty _ IH]; [reflexivity|].
    cbn [Conn.handleChannels]. unfold Conn.handleChannel.
    rewrite decide_True by assumption. now rewrite IH. }
  reflexivity.
Qed.

(** X14: a [register-worker] exec is accepted, the descriptor the
    worker wrote is handed to the heartbeater exactly as decoded, the
    queue of forwards is not read, and once the connection wait is over
    the handler goes on with the requests left on the channel. *)
Theorem direct_registration_verbatim s channel req more command worker :
  Type_ req = "exec" ->
  Payload req = Some command ->
  parseRequest command = inl registerWorkerRequest ->
  Decoded req = Some worker ->
  handleRequests s channel (req :: more)
  = let '(f, s', t) :=
      handleRequests
        {| processes := processes s ++ [Heartbeater worker];
           channels := channels s;
           forwardedTCPIPs := forwardedTCPIPs s |} channel more in
    (f, s', [Reply true; Start (Heartbeater worker); ConnWait] ++ t).
Proof.
  intros Hexec Hpay Hparse Hdec. cbn [Conn.handleRequests].
  unfold Conn.handleRequest.
  rewrite decide_False by (intros Hn; now apply Hn).
  rewrite Hpay, Hparse. unfold registerWorker. rewrite Hdec. reflexivity.
Qed.

(** X15: no heartbeater is started for a request whose descriptor does
    not decode, whatever the command and whatever was forwarded. *)
Theorem undecoded_descriptor_starts_nothing s channel req :
  Decoded req = None ->
  Observe.started (snd (handleRequest s channel req)) = [].
Proof.
  intros Hdec. pose proof (handleRequest_inv s channel req) as Hinv.
  destruct (handleRequest s channel req) as [[f s'] t].
  destruct Hinv as (_ & _ & _ & _ & Hstart). now apply Hstart.
Qed.

(** X16: how channel requests are replied to.  A request that is not
    an [exec], an [exec] whose payload is malformed and a command that
    does not parse are replied false; a [register-worker] is replied
    true; a [forward-worker] is never replied to, on any of its paths. *)
Theorem reply_table s channel req :
  Observe.answered (snd (handleRequest s channel req))
  = if decide (Type_ req <> "exec") then [false]
    else
      match Payload req with
      | None => [false]
      | Some command =>
        match parseRequest command with
        | inr _ => [false]
        | inl registerWorkerRequest => [true]
        | inl (forwardWorkerRequest _ _) => []
        end
      end.
Proof.
  unfold Conn.handleRequest. case_decide; [reflexivity|].
  destruct (Payload req) as [command|]; [|reflexivity].
  destruct (parseRequest command) as [[|gardenAddr baggageclaimAddr]|err];
    [| |reflexivity].
  - unfold registerWorker. destruct (continuouslyRegisterWorkerDirectly _);
      reflexivity.
  - unfold Conn.forwardWorker.
    destruct (collect _ s ∅) as [s1 forwards].
    pose proof (register_forwards_inv s1 channel (Decoded req) gardenAddr
                  baggageclaimAddr forwards) as Hreg.
    destruct (register_forwards _ _ _ _ _ _) as [[f s'] t].
    destruct Hreg as (_ & _ & _ & Hans & _). exact Hans.
Qed.

Lemma collect_size n s : size (snd (collect n s ∅)) <= n.
Proof.
  rewrite collect_spec. cbn [snd].
  pose proof (keep_all_size (Observe.received n (forwardedTCPIPs s)) ∅) as H.
  pose proof (received_le n (forwardedTCPIPs s)).
  rewrite map_size_empty in H. lia.
Qed.

(** X17: when at most one forward is expected the declared addresses
    are never looked at: the forward received, whatever its bind
    address, is taken for the Garden forward. *)
Theorem single_forward_ignores_addresses s channel decoded gardenAddr
    baggageclaimAddr gardenAddr' baggageclaimAddr' :
  expectedForwards gardenAddr baggageclaimAddr <= 1 ->
  expectedForwards gardenAddr' baggageclaimAddr'
  = expectedForwards gardenAddr baggageclaimAddr ->
  forwardWorker s channel decoded gardenAddr' baggageclaimAddr'
  = forwardWorker s channel decoded gardenAddr baggageclaimAddr.
Proof.
  intros Hle Heq. unfold Conn.forwardWorker. rewrite Heq.
  pose proof (collect_size (expectedForwards gardenAddr baggageclaimAddr) s)
    as Hsize.
  destruct (collect _ s ∅) as [s1 forwards]. cbn [snd] in Hsize.
  unfold Conn.register_forwards.
  destruct (size forwards) as [|[|n]]; [reflexivity | reflexivity | lia].
Qed.

(** X18: an [exec] whose payload is malformed, and a [register-worker]
    whose descriptor does not decode, end the handler: the first is
    replied false, the second was already replied true; nothing is
    started, the requests and channels that follow are not served, and
    the deferred closes and the cleanup run. *)
Theorem malformed_message_ends_handler s newChannel pre req more rest s1 t1 :
  ChannelType newChannel = "session" ->
  Accepted newChannel = Some (pre ++ req :: more) ->
  let channel := length (channels s) in
  handleRequests {| processes := processes s;
                    channels := channel :: channels s;
                    forwardedTCPIPs := forwardedTCPIPs s |} channel pre
  = (Continue, s1, t1) ->
  Type_ req = "exec" ->
  (Payload req = None
   -> handleConnFrom s (newChannel :: rest)
      = Accept channel :: t1 ++ [Reply false] ++ unwind s1)
  /\ (forall command,
        Payload req = Some command ->
        parseRequest command = inl registerWorkerRequest ->
        Decoded req = None ->
        handleConnFrom s (newChannel :: rest)
        = Accept channel :: t1 ++ [Reply true] ++ unwind s1).
Proof.
  intros Hty Hacc channel Hpre Hexec.
  assert (forall ok,
             handleRequest s1 channel req = (Return, s1, [Reply ok]) ->
             handleConnFrom s (newChannel :: rest)
             = Accept channel :: t1 ++ [Reply ok] ++ unwind s1) as Hend.
  { intros ok Hreq.
    unfold Conn.handleConnFrom. cbn [Conn.handleChannels].
    unfold Conn.handleChannel.
    rewrite decide_False by (intros Hn; now apply Hn).
    rewrite Hacc. fold channel.
    rewrite (ConnFacts.handleRequests_app forwardHost parseRequest
               expectedForwards _ _ _ (req :: more) _ _ Hpre).
    cbn [Conn.handleRequests]. rewrite Hreq.
    cbn. now rewrite <- !app_assoc. }
  split.
  - intros Hpay. apply Hend. unfold Conn.handleRequest.
    rewrite decide_False by (intros Hn; now apply Hn).
    now rewrite Hpay.
  - intros command Hpay Hparse Hdec. apply Hend. unfold Conn.handleRequest.
    rewrite decide_False by (intros Hn; now apply Hn).
    rewrite Hpay, Hparse. unfold registerWorker. now rewrite Hdec.
Qed.

(** The records two well-formed [tcpip-forward] requests leave on the
    queue. *)
Lemma pushed_two ip1 p1 k1 ip2 p2 k2 :
  Forward.pushed
    (Forward.handleForwardRequests
       [Scenario.forward ip1 p1 k1; Scenario.forward ip2 p2 k2])
  = [ {| bindAddr := host_port ip1 p1;
         process := Dispatcher 0 ip1 (if decide (p1 = 0%N) then k1 else p1);
         boundPort := k1 |};
      {| bindAddr := host_port ip2 p2;
         process := Dispatcher 1 ip2 (if decide (p2 = 0%N) then k2 else p2);
         boundPort := k2 |} ].
Proof.
  unfold Forward.handleForwardRequests, Forward.serve,
    Forward.handleForwardRequest, Scenario.forward, Forward.init.
  cbn [Forward.Type_ Forward.Payload Forward.Listen_ Forward.forwardedThings
       Forward.deferred Forward.opened].
  rewrite !(decide_True (P := "tcpip-forward" = "tcpip-forward")) by reflexivity.
  change (wrap_int (0 + 1)) with 1%Z.
  rewrite (decide_False (P := (1 > 2)%Z)) by lia.
  cbn [Forward.forwardedThings Forward.deferred Forward.opened].
  change (wrap_int (1 + 1)) with 2%Z.
  rewrite (decide_False (P := (2 > 2)%Z)) by lia.
  reflexivity.
Qed.

(** X19: the two tunnels of a worker are told apart by the bind
    addresses it declared, not by the order it opened them in.  When it
    opens one for each of its two distinct declared addresses, in either
    order, and then asks to be forwarded, the descriptor published has
    the kernel's port of the Garden tunnel in its Garden address and the
    kernel's port of the Baggageclaim tunnel in its Baggageclaim URL. *)
Theorem tunnels_told_apart_by_address channel worker ipg pg kg ipb pb kb reqs :
  host_port ipg pg <> host_port ipb pb ->
  kb <> 0%N ->
  expectedForwards (host_port ipg pg) (host_port ipb pb) = 2 ->
  reqs = [Scenario.forward ipg pg kg; Scenario.forward ipb pb kb]
  \/ reqs = [Scenario.forward ipb pb kb; Scenario.forward ipg pg kg] ->
  published
    (snd (forwardWorker
            (init (map Some (Forward.pushed (Forward.handleForwardRequests reqs))))
            channel (Some worker) (host_port ipg pg) (host_port ipb pb)))
  = [ {| GardenAddr := host_port forwardHost kg;
         BaggageclaimURL := "http://" +:+ host_port forwardHost kb;
         Name := Name worker;
         Platform := Platform worker;
         Tags := Tags worker |} ].
Proof.
  intros Hne Hkb Hexp [-> | ->]; rewrite pushed_two;
    unfold Conn.forwardWorker; rewrite Hexp; cbn [map init collect
      forwardedTCPIPs processes channels bindAddr boundPort process];
    unfold Conn.register_forwards.
  - rewrite map_size_insert_None
      by (rewrite lookup_insert_ne by congruence; apply lookup_empty).
    rewrite map_size_insert_None by apply lookup_empty.
    rewrite map_size_empty.
    rewrite (lookup_insert_ne _ (host_port ipb pb) (host_port ipg pg)) by congruence.
    rewrite !lookup_insert_eq.
    cbn [boundPort]. unfold Conn.continuouslyRegisterForwardedWorker.
    rewrite (decide_True (P := kb ≠ 0%N)) by assumption. reflexivity.
  - rewrite map_size_insert_None
      by (rewrite lookup_insert_ne by congruence; apply lookup_empty).
    rewrite map_size_insert_None by apply lookup_empty.
    rewrite map_size_empty.
    rewrite lookup_insert_eq.
    rewrite (lookup_insert_ne _ (host_port ipg pg) (host_port ipb pb)) by congruence.
    rewrite lookup_insert_eq.
    cbn [boundPort]. unfold Conn.continuouslyRegisterForwardedWorker.
    rewrite (decide_True (P := kb ≠ 0%N)) by assumption. reflexivity.
Qed.

(** Whatever happens, a dial starts with [net.DialTimeout] on the
    network and address the factory was given. *)
Lemma dial_first network address a :
  exists rest,
    snd (Dialer.keepaliveDialer network address a)
    = Dialer.DialTimeout network address 5 :: rest.
Proof.
  unfold Dialer.keepaliveDialer.
  destruct (Dialer.dialed a) as [conn|err]; [|eexists; reflexivity].
  destruct (Dialer.enabled a) as [[kac|] err]; eexists; reflexivity.
Qed.

(** X20: the Garden client of the heartbeater of a forwarded worker
    dials the gateway's end of the tunnel: whatever network and address
    the client asks for, the dial goes to the forward host and the bound
    port of a forward received from the queue, over tcp, with a
    five-second timeout. *)
Theorem garden_probe_through_tunnel s channel decoded gardenAddr
    baggageclaimAddr w' :
  w' ∈ published (snd (forwardWorker s channel decoded gardenAddr baggageclaimAddr)) ->
  exists gardenForward dialer,
    Some gardenForward ∈ forwardedTCPIPs s
    /\ Heartbeat.gardenDialer (Heartbeater w') = Some dialer
    /\ forall network address a,
         exists rest,
           snd (dialer network address a)
           = Dialer.DialTimeout "tcp"
               (host_port forwardHost (boundPort gardenForward)) 5 :: rest.
Proof.
  unfold Conn.forwardWorker.
  pose proof (ConnFacts.collect_from_queue
                (expectedForwards gardenAddr baggageclaimAddr) s ∅) as Hq.
  destruct (collect (expectedForwards gardenAddr baggageclaimAddr) s ∅)
    as [s1 forwards].
  cbn [snd] in Hq. intros H.
  assert (exists gardenForward port,
             Some gardenForward ∈ forwardedTCPIPs s
             /\ continuouslyRegisterForwardedWorker decoded
                  (boundPort gardenForward) port
                = Some (Heartbeater w')) as (gf & port & Hin & Hreg).
  { apply (ConnFacts.register_forwards_published forwardHost) in H
      as [(_ & k & gf & _ & Hk & H)|(_ & gf & bf & Hg & _ & H)].
    - exists gf, 0%N. split; [|assumption].
      apply Hq in Hk as [Hk|Hk]; [now rewrite lookup_empty in Hk | assumption].
    - exists gf, (boundPort bf). split; [|assumption].
      apply Hq in Hg as [Hg|Hg]; [now rewrite lookup_empty in Hg | assumption]. }
  apply (ConnFacts.forwarded_descriptor forwardHost) in Hreg
    as (worker & _ & HG & _).
  exists gf. eexists. split; [assumption|]. split; [reflexivity|].
  intros network address a. unfold Heartbeat.keepaliveDialerFactory.
  rewrite HG. apply dial_first.
Qed.

End Handler.

(** *** The theorems at work on the scenarios *)

Lemma started_processes_joined_witness :
  Connection.joined (Heartbeater Scenario.w2)
    (handleConnFrom Scenario.gateway Parser.parseRequest Parser.expectedForwards
       (init []) [Scenario.session [Scenario.exec "register-worker"]]).
Proof.
  apply (started_processes_joined Scenario.gateway Parser.parseRequest
           Parser.expectedForwards (init [])
           [Scenario.session [Scenario.exec "register-worker"]]
           (Heartbeater Scenario.w2)).
  vm_compute. apply list_elem_of_here.
Defined.

Lemma other_channels_rejected_witness :
  handleConn Scenario.gateway Parser.parseRequest Parser.expectedForwards
    [Some (Scenario.forwarded 0 0 40001)]
    [{| ChannelType := "direct-tcpip"; Accepted := None |};
     {| ChannelType := "x11"; Accepted := Some [Scenario.exec "register-worker"] |}]
  = map (fun newChannel => Reject (ChannelType newChannel))
      [{| ChannelType := "direct-tcpip"; Accepted := None |};
       {| ChannelType := "x11"; Accepted := Some [Scenario.exec "register-worker"] |}]
    ++ [CloseConn].
Proof.
  apply (other_channels_rejected Scenario.gateway Parser.parseRequest
           Parser.expectedForwards).
  repeat constructor; discriminate.
Defined.

Lemma direct_registration_verbatim_witness :
  handleRequests Scenario.gateway Parser.parseRequest Parser.expectedForwards
    (init [Some (Scenario.forwarded 0 0 40001)]) 0
    [Scenario.exec "register-worker"]
  = let '(f, s', t) :=
      handleRequests Scenario.gateway Parser.parseRequest Parser.expectedForwards
        {| processes := [] ++ [Heartbeater Scenario.w2];
           channels := [];
           forwardedTCPIPs := [Some (Scenario.forwarded 0 0 40001)] |} 0 [] in
    (f, s', [Reply true; Start (Heartbeater Scenario.w2); ConnWait] ++ t).
Proof.
  apply (direct_registration_verbatim Scenario.gateway Parser.parseRequest
           Parser.expectedForwards
           (init [Some (Scenario.forwarded 0 0 40001)]) 0
           (Scenario.exec "register-worker") [] "register-worker" Scenario.w2).
  - reflexivity.
  - reflexivity.
  - vm_compute. reflexivity.
  - reflexivity.
Defined.

Lemma undecoded_descriptor_starts_nothing_witness :
  Observe.started
    (snd (handleRequest Scenario.gateway Parser.parseRequest Parser.expectedForwards
            (init [Some (Scenario.forwarded 0 0 40001)]) 0
            {| Type_ := "exec"; Payload := Some "forward-worker"; Decoded := None |}))
  = [].
Proof.
  apply (undecoded_descriptor_starts_nothing Scenario.gateway Parser.parseRequest
           Parser.expectedForwards).
  reflexivity.
Defined.

(** Only a Baggageclaim address declared, and one tunnel: the tunnel is
    the Garden's all the same. *)
Lemma single_forward_ignores_addresses_witness :
  forwardWorker Scenario.gateway Parser.expectedForwards
    (init [Some (Scenario.forwarded 0 7788 40001)]) 0 (Some Scenario.w2)
    "" "0.0.0.0:7788"
  = forwardWorker Scenario.gateway Parser.expectedForwards
      (init [Some (Scenario.forwarded 0 7788 40001)]) 0 (Some Scenario.w2)
      "0.0.0.0:7777" "".
Proof.
  apply (single_forward_ignores_addresses Scenario.gateway Parser.expectedForwards).
  - vm_compute. lia.
  - vm_compute. reflexivity.
Defined.

Lemma malformed_message_ends_handler_witness :
  let req := {| Type_ := "exec"; Payload := None; Decoded := None |} in
  let newChannel := Scenario.session [req; Scenario.exec "register-worker"] in
  (Payload req = None
   -> handleConnFrom Scenario.gateway Parser.parseRequest Parser.expectedForwards
        (init []) [newChannel; newChannel]
      = Accept 0 :: [] ++ [Reply false]
        ++ unwind {| processes := []; channels := [0]; forwardedTCPIPs := [] |})
  /\ (forall command,
        Payload req = Some command ->
        Parser.parseRequest command = inl registerWorkerRequest ->
        Decoded req = None ->
        handleConnFrom Scenario.gateway Parser.parseRequest Parser.expectedForwards
          (init []) [newChannel; newChannel]
        = Accept 0 :: [] ++ [Reply true]
          ++ unwind {| processes := []; channels := [0]; forwardedTCPIPs := [] |}).
Proof.
  apply (malformed_message_ends_handler Scenario.gateway Parser.parseRequest
           Parser.expectedForwards (init [])
           (Scenario.session [{| Type_ := "exec"; Payload := None; Decoded := None |};
                              Scenario.exec "register-worker"])
           [] {| Type_ := "exec"; Payload := None; Decoded := None |}
           [Scenario.exec "register-worker"]
           [Scenario.session [{| Type_ := "exec"; Payload := None; Decoded := None |};
                              Scenario.exec "register-worker"]]
           {| processes := []; channels := [0]; forwardedTCPIPs := [] |} []).
  - reflexivity.
  - reflexivity.
  - reflexivity.
  - reflexivity.
Defined.

(** Scenario S3 with the Baggageclaim tunnel opened first. *)
Lemma tunnels_told_apart_by_address_witness :
  published
    (snd (forwardWorker Scenario.gateway Parser.expectedForwards
            (init (map Some
                     (Forward.pushed
                        (Forward.handleForwardRequests
                           [Scenario.forward "0.0.0.0" 7788 40002;
                            Scenario.forward "0.0.0.0" 7777 40001]))))
            0 (Some Scenario.w2)
            (host_port "0.0.0.0" 7777) (host_port "0.0.0.0" 7788)))
  = [ {| GardenAddr := host_port Scenario.gateway 40001;
         BaggageclaimURL := "http://" +:+ host_port Scenario.gateway 40002;
         Name := Name Scenario.w2;
         Platform := Platform Scenario.w2;
         Tags := Tags Scenario.w2 |} ].
Proof.
  apply (tunnels_told_apart_by_address Scenario.gateway Parser.expectedForwards
           0 Scenario.w2 "0.0.0.0" 7777 40001 "0.0.0.0" 7788 40002).
  - vm_compute. discriminate.
  - discriminate.
  - vm_compute. reflexivity.
  - right. reflexivity.
Defined.

Lemma garden_probe_through_tunnel_witness :
  exists gardenForward dialer,
    Some gardenForward ∈ forwardedTCPIPs (init [Some (Scenario.forwarded 0 0 40001)])
    /\ Heartbeat.gardenDialer
         (Heartbeater
            (Scenario.rewritten "gateway.example:40001" "http://10.0.0.5:7788"))
       = Some dialer
    /\ forall network address a,
         exists rest,
           snd (dialer network address a)
           = Dialer.DialTimeout "tcp"
               (host_port Scenario.gateway (boundPort gardenForward)) 5 :: rest.
Proof.
  apply (garden_probe_through_tunnel Scenario.gateway Parser.expectedForwards
           (init [Some (Scenario.forwarded 0 0 40001)]) 0 (Some Scenario.w2) "" ""
           (Scenario.rewritten "gateway.example:40001" "http://10.0.0.5:7788")).
  vm_compute. apply list_elem_of_here.
Defined.

End ConnInvariants.

(** ** More on the keepalive dialer *)

Module DialerInvariants.

Import Dialer.

(** X21: when the dial succeeds and keepalive is enabled, the dialer
    makes exactly five calls, in this order: the dial with a five-second
    timeout, [EnableKeepAlive], then idle 10 s, 3 probes, interval 5 s.
    It prints one line for each of the four keepalive calls that
    reported an error, and returns the dialed connection with a nil
    error whatever they reported. *)
Theorem keepalive_parameters network address a conn kac err :
  dialed a = inl conn ->
  enabled a = (Some kac, err) ->
  let (result, t) := keepaliveDialer network address a in
  result = Returned (Some conn, None)
  /\ Observe.calls t
     = [DialTimeout network address 5; EnableKeepAlive conn;
        SetKeepAliveIdle 10; SetKeepAliveCount 3; SetKeepAliveInterval 5]
  /\ Observe.printed t
     = Observe.failures [err; idleSet a; countSet a; intervalSet a].
Proof.
  intros Hd He. unfold keepaliveDialer. rewrite Hd, He.
  destruct err, (idleSet a), (countSet a), (intervalSet a); repeat split.
Qed.

Lemma keepalive_parameters_witness :
  let a := {| dialed := inl 7; enabled := (Some 7, None);
              idleSet := Some "operation not supported"; countSet := None;
              intervalSet := Some "operation not supported" |} in
  let (result, t) := keepaliveDialer "tcp" "gateway.example:40001" a in
  result = Returned (Some 7, None)
  /\ Observe.calls t
     = [DialTimeout "tcp" "gateway.example:40001" 5; EnableKeepAlive 7;
        SetKeepAliveIdle 10; SetKeepAliveCount 3; SetKeepAliveInterval 5]
  /\ Observe.printed t
     = Observe.failures [None; idleSet a; countSet a; intervalSet a].
Proof.
  apply (keepalive_parameters "tcp" "gateway.example:40001"
           {| dialed := inl 7; enabled := (Some 7, None);
              idleSet := Some "operation not supported"; countSet := None;
              intervalSet := Some "operation not supported" |} 7 7 None).
  - reflexivity.
  - reflexivity.
Defined.

End DialerInvariants.

(** ** The accept loops *)

Module LoopFacts.

(** X22: the server starts a handler for exactly the connections
    whose handshake succeeded, in the order they were accepted; a failed
    handshake is skipped and the loop goes on; the loop returns at the
    first failed accept, and only then, and serves nothing that comes
    after. *)
Theorem serve_until_accept_fails pre post :
  Server.AcceptFailed ∉ pre ->
  Server.Serve (pre ++ Server.AcceptFailed :: post)
  = (omap Server.established pre, true)
  /\ Server.Serve pre = (omap Server.established pre, false).
Proof.
  induction pre as [|a pre IH]; intros Hnot; [split; reflexivity|].
  apply not_elem_of_cons in Hnot as [Hne Hnot].
  destruct (IH Hnot) as [IH1 IH2].
  destruct a as [| |c]; [contradiction| |]; cbn.
  - split; assumption.
  - rewrite IH1, IH2. split; reflexivity.
Qed.

Lemma serve_until_accept_fails_witness :
  let c := {| Server.reqs := []; Server.chans := [] |} in
  Server.Serve ([Server.HandshakeFailed; Server.Established c]
                ++ Server.AcceptFailed :: [Server.Established c])
  = (omap Server.established [Server.HandshakeFailed; Server.Established c], true)
  /\ Server.Serve [Server.HandshakeFailed; Server.Established c]
     = (omap Server.established [Server.HandshakeFailed; Server.Established c], false).
Proof.
  apply (serve_until_accept_fails
           [Server.HandshakeFailed;
            Server.Established {| Server.reqs := []; Server.chans := [] |}]
           [Server.Established {| Server.reqs := []; Server.chans := [] |}]).
  intros H. absurd_member H.
Defined.

(** X23: a dispatcher hands every local connection it accepts to
    [forwardLocalConn], with the forward address it was started with,
    until an accept fails; then it exits, and takes no connection that
    comes after.  Each channel it opens names that forward address and
    the origin of its local connection. *)
Theorem dispatcher_forwards_until_accept_fails l ip port origins post :
  Dispatch.run (Dispatcher l ip port) (map Some origins ++ None :: post)
  = (map (Forward.forwardLocalConn ip port) origins, true)
  /\ Dispatch.run (Dispatcher l ip port) (map Some origins)
     = (map (Forward.forwardLocalConn ip port) origins, false)
  /\ forall ch,
       Some ch ∈ map (Forward.forwardLocalConn ip port) origins ->
       ForwardIP ch = ip /\ ForwardPort ch = port
       /\ Some (OriginIP ch, Some (OriginPort ch)) ∈ origins.
Proof.
  split; [|split].
  - induction origins as [|o origins IH]; [reflexivity|].
    cbn. cbn in IH. now rewrite IH.
  - induction origins as [|o origins IH]; [reflexivity|].
    cbn. cbn in IH. now rewrite IH.
  - intros ch H. apply list_elem_of_fmap in H as (o & Ho & Hin).
    destruct o as [[host [oport|]]|]; try discriminate Ho.
    cbn in Ho. injection Ho as ->. cbn. repeat split. exact Hin.
Qed.

End LoopFacts.

(** ** The resource checker *)

Module CheckerFacts.

Import Checker.

(** X24: [Check] ends in one of two ways.  Either an error stopped it
    up to [CreateCheck]: it returns no check, [false] and that error;
    [NotifyChecker] was not called, and [CreateCheck] was not called
    unless it is the call that failed.  Or [CreateCheck] returned a nil
    error: then [Check] returns the check and the flag [CreateCheck]
    gave, as they are (a nil check is not tested for),
    [NotifyChecker] was the last call, and the error returned is the one
    of [NotifyChecker]: the check comes back even when notifying
    fails. *)
Theorem check_returns_what_was_created d a c v :
  let '((chk, new, err), t) := Check d a c v in
  (last t = Some NotifyChecker
   /\ created a = (chk, new, None)
   /\ err = notified a
   /\ length (plans t) = 1)
  \/ ((NotifyChecker ∉ t)
      /\ chk = None /\ new = false /\ is_Some err
      /\ (plans t = []
          \/ (length (plans t) = 1 /\ snd (created a) = err))).
Proof.
  unfold Check, check, bind, call, ret, fail, checked.
  destruct (parent a) as [[?|]|]; destruct v; try case_decide.
  all: split_answers a.
  all: first
         [ left; repeat split; reflexivity
         | right; split; [intros Hm; absurd_member Hm|];
           repeat match goal with |- _ /\ _ => split end;
           try reflexivity; eauto ].
Qed.

(** A [CreateCheck] that returns no check and no error: [Check] goes
    on to notify and returns no check, with whatever error notifying
    gave, nil included. *)
Example nil_check_is_passed_on d c v msg :
  fst (Check d
         {| parent := None; parsedTimeout := inr msg; source := inl "";
            resourceTypes := inl [];
            scope := inl {| ScopeID := 0; ResourceConfigID := 0;
                            BaseResourceTypeID := 0 |};
            latest := inl None; created := (None, false, None);
            notified := None |}
         {| CheckableName := c; CheckableType := ""; CheckableTags := [];
            CheckTimeout := ""; TeamID := 0 |} v)
  = (None, false, None).
Proof. destruct v; reflexivity. Qed.

(** X25: the plan handed to [CreateCheck] carries the name, type and
    tags of the checkable, the evaluated source and resource types, the
    checkable's own timeout when it sets one and the default otherwise,
    and as starting version the one the caller gave, else the version
    of the latest one of the scope if there is one, else none. *)
Theorem plan_contents d a c v plan :
  plan ∈ plans (snd (Check d a c v)) ->
  PlanName plan = CheckableName c
  /\ PlanType plan = CheckableType c
  /\ PlanTags plan = CheckableTags c
  /\ source a = inl (PlanSource plan)
  /\ resourceTypes a = inl (VersionedResourceTypes plan)
  /\ (if decide (CheckTimeout c <> "")
      then parsedTimeout a = inl (PlanTimeout plan)
      else PlanTimeout plan = d)
  /\ match v with
     | Some version => FromVersion plan = Some version
     | None =>
       exists found,
         latest a = inl found
         /\ FromVersion plan = match found with
                               | Some version => version
                               | None => None
                               end
     end.
Proof.
  unfold Check, check, bind, call, ret, fail.
  destruct (parent a) as [[?|]|]; destruct v; try case_decide.
  all: split_answers a.
  all: intros Hm; absurd_member Hm; subst plan; repeat split; eauto.
Qed.

Lemma plan_contents_witness :
  let a := {| parent := Some (Some "v0");
              parsedTimeout := inl 60000000000%Z;
              source := inl "uri: https://example.com/repo.git";
              resourceTypes := inl [];
              scope := inl {| ScopeID := 1; ResourceConfigID := 2;
                              BaseResourceTypeID := 3 |};
              latest := inl (Some (Some "ref: abc"));
              created := (Some 9, true, None);
              notified := None |} in
  let c := {| CheckableName := "repo"; CheckableType := "git";
              CheckableTags := []; CheckTimeout := "1m"; TeamID := 1 |} in
  let plan := {| PlanName := "repo"; PlanType := "git";
                 PlanSource := "uri: https://example.com/repo.git";
                 PlanTags := []; PlanTimeout := 60000000000%Z;
                 FromVersion := Some "ref: abc";
                 VersionedResourceTypes := [] |} in
  PlanName plan = CheckableName c
  /\ PlanType plan = CheckableType c
  /\ PlanTags plan = CheckableTags c
  /\ source a = inl (PlanSource plan)
  /\ resourceTypes a = inl (VersionedResourceTypes plan)
  /\ (if decide (CheckTimeout c <> "")
      then parsedTimeout a = inl (PlanTimeout plan)
      else PlanTimeout plan = 30000000000%Z)
  /\ exists found,
       latest a = inl found
       /\ FromVersion plan = match found with
                             | Some version => version
                             | None => None
                             end.
Proof.
  intros a c plan.
  apply (plan_contents 30000000000%Z a c None plan).
  vm_compute. apply list_elem_of_here.
Defined.

(** X26: collaborators are consulted only when needed.  A parent type
    without a version fails the check before anything is evaluated; the
    timeout is parsed only when the checkable sets one; the latest
    version is looked up only when the caller gave none. *)
Theorem collaborators_consulted_when_needed d a c v :
  (parent a = Some None ->
   Check d a c v = ((None, false, Some "parent type has no version"), []))
  /\ (CheckTimeout c = "" -> forall s, ParseDuration s ∉ snd (Check d a c v))
  /\ (is_Some v -> forall sc, LatestVersion sc ∉ snd (Check d a c v)).
Proof.
  split; [|split].
  - intros H. unfold Check, check, bind, call, ret, fail. now rewrite H.
  - intros Ht s. unfold Check, check, bind, call, ret, fail.
    rewrite decide_False by (intros Hn; now apply Hn).
    destruct (parent a) as [[?|]|]; destruct v.
    all: split_answers a.
    all: intros Hm; absurd_member Hm.
  - intros [version ->] sc. unfold Check, check, bind, call, ret, fail.
    destruct (parent a) as [[?|]|]; try case_decide.
    all: split_answers a.
    all: intros Hm; absurd_member Hm.
Qed.

End CheckerFacts.
